(** * AppliedGo/json: the JSON client/server demo, embedded in Rocq.

    The repository holds three revisions of one Go program:
    - the draft      (src/json.go, first document): unexported struct
      fields, the functions [encode] and [decode], a command-line [main];
    - the CLI revision (src/unnamed/part_000): exported fields, the
      handler, [server], [client], and a command-line [main];
    - the final revision (src/json.go, second document): as the CLI
      revision, with [main] starting server and client together.

    The program delegates to Go's standard library ([reflect],
    [strconv], [encoding/json], [net/http]).  The parts of the library
    that the program's behaviour depends on are modelled in the modules
    [Reflect], [Strconv], [Json] and [Http] below, following the library's
    documented algorithms; the program itself is in [Draft], [Cli] and
    [Final]. *)

From Stdlib Require Import Bool Arith ZArith Lia List String Ascii.
From Stdlib Require Import DecimalString SpecFloat.
From Stdlib Require DecimalFacts DecimalPos.
Import ListNotations.
Open Scope string_scope.
Open Scope nat_scope.

(** ** Byte strings

    A Go [string] is a sequence of bytes: [String.string] over 8-bit
    [ascii]. *)

Definition byte_of (c : ascii) : nat := nat_of_ascii c.

(** The double quote (byte 34) and the backslash (byte 92). *)
Definition dquote : ascii := ascii_of_nat 34.
Definition bslash : ascii := ascii_of_nat 92.

(** Literals are written with an apostrophe where the text has a double
    quote; [q] puts the double quotes back. *)
Fixpoint q (s : string) : string :=
  match s with
  | EmptyString => EmptyString
  | String c s' => String (if Ascii.eqb c "'" then dquote else c) (q s')
  end.

(** [s[n:]] *)
Fixpoint drop (n : nat) (s : string) : string :=
  match n, s with
  | O, _ => s
  | S _, EmptyString => EmptyString
  | S n', String _ s' => drop n' s'
  end.

(** [s[:n]] *)
Fixpoint take (n : nat) (s : string) : string :=
  match n, s with
  | O, _ => EmptyString
  | S _, EmptyString => EmptyString
  | S n', String c s' => String c (take n' s')
  end.

(** [s[i]], when [i < len(s)] *)
Definition at_ (s : string) (i : nat) : option ascii := String.get i s.

Definition is_byte (c : ascii) (o : option ascii) : bool :=
  match o with
  | Some d => Ascii.eqb c d
  | None => false
  end.

(** Length of the longest prefix whose bytes satisfy [p]. *)
Fixpoint span_len (p : ascii -> bool) (s : string) : nat :=
  match s with
  | EmptyString => 0
  | String c s' => if p c then S (span_len p s') else 0
  end.

Module Strconv.

(** [strconv.Unquote] restricted to interpreted string literals in double
    quotes.  The escapes for backslash, double quote, newline, carriage
    return and tab are interpreted; any other backslash sequence, a raw
    newline or a raw double quote inside the literal is a syntax error
    ([None]).  The struct tags of this program never reach [Unquote]
    (see [program_tags_unreadable]). *)
Fixpoint unquote_body (esc : bool) (s : string) : option string :=
  let cons_to (r : ascii) (o : option string) :=
    match o with
    | Some t => Some (String r t)
    | None => None
    end in
  match s with
  | EmptyString => None
  | String c s' =>
      if esc then
        if Ascii.eqb c bslash then cons_to bslash (unquote_body false s')
        else if Ascii.eqb c dquote then cons_to dquote (unquote_body false s')
        else if Ascii.eqb c "n" then cons_to "010"%char (unquote_body false s')
        else if Ascii.eqb c "r" then cons_to "013"%char (unquote_body false s')
        else if Ascii.eqb c "t" then cons_to "009"%char (unquote_body false s')
        else None
      else if Ascii.eqb c dquote then
        match s' with
        | EmptyString => Some EmptyString
        | _ => None
        end
      else if Ascii.eqb c "010" then None
      else if Ascii.eqb c bslash then unquote_body true s'
      else cons_to c (unquote_body false s')
  end.

Definition Unquote (s : string) : option string :=
  match s with
  | String c s' => if Ascii.eqb c dquote then unquote_body false s' else None
  | EmptyString => None
  end.

(** *** Integers ([int] is 64 bits wide on the platforms the program is
    built for) *)

Definition digit_val (c : ascii) : option Z :=
  let n := byte_of c in
  if (48 <=? n) && (n <=? 57) then Some (Z.of_nat (n - 48)) else None.

Definition is_digit (c : ascii) : bool :=
  match digit_val c with Some _ => true | None => false end.

Fixpoint digits_value (acc : Z) (s : string) : option Z :=
  match s with
  | EmptyString => Some acc
  | String c s' =>
      match digit_val c with
      | Some d => digits_value (10 * acc + d) s'
      | None => None
      end
  end.

(** A non-empty run of decimal digits. *)
Definition parse_digits (s : string) : option Z :=
  match s with
  | EmptyString => None
  | _ => digits_value 0 s
  end.

Definition minInt64 : Z := - 2 ^ 63.
Definition maxInt64 : Z := 2 ^ 63 - 1.

(** [strconv.ParseInt(s, 10, 64)]: an optional sign, then decimal digits;
    [None] for a syntax error and for a value out of range. *)
Definition ParseInt (s : string) : option Z :=
  let in_range (z : Z) :=
    if (minInt64 <=? z)%Z && (z <=? maxInt64)%Z then Some z else None in
  match s with
  | String "-" s' =>
      match parse_digits s' with
      | Some n => in_range (- n)%Z
      | None => None
      end
  | String "+" s' =>
      match parse_digits s' with
      | Some n => in_range n
      | None => None
      end
  | _ =>
      match parse_digits s with
      | Some n => in_range n
      | None => None
      end
  end.

(** [strconv.FormatInt(z, 10)] *)
Definition FormatInt (z : Z) : string := NilZero.string_of_int (Z.to_int z).

(** *** float32

    A [float32] is an IEEE 754 binary32 number: [spec_float] with
    precision 24 and exponents up to 128.  A finite non-zero value
    [S754_finite s m e] stands for (-1)^s * m * 2^e, with
    2^23 <= m < 2^24 and -149 <= e <= 104, or m < 2^23 and e = -149. *)

Definition float32 := spec_float.

Definition float32_eqb (x y : float32) : bool :=
  match x, y with
  | S754_zero a, S754_zero b => Bool.eqb a b
  | S754_infinity a, S754_infinity b => Bool.eqb a b
  | S754_nan, S754_nan => true
  | S754_finite a m e, S754_finite b n f =>
      Bool.eqb a b && Pos.eqb m n && Z.eqb e f
  | _, _ => false
  end.

Section Float32.
Local Open Scope Z_scope.

(** floor(log2(num/den)) for positive [num] and [den]. *)
Definition ilog2_ratio (num den : Z) : Z :=
  let l := Z.log2 num - Z.log2 den in
  let ge := if 0 <=? l then den * 2 ^ l <=? num else den <=? num * 2 ^ (- l) in
  if ge then l else l - 1.

(** The binary32 number nearest to the rational [num/den] ([num >= 0],
    [den > 0]), ties to the even mantissa; overflow gives infinity. *)
Definition round32 (neg : bool) (num den : Z) : float32 :=
  if num <=? 0 then S754_zero neg
  else
    let e := ilog2_ratio num den in
    let qe := Z.max (e - 23) (-149) in
    let n' := if 0 <=? qe then num else num * 2 ^ (- qe) in
    let d' := if 0 <=? qe then den * 2 ^ qe else den in
    let m := n' / d' in
    let r := n' mod d' in
    let m1 := if (d' <? 2 * r) || ((2 * r =? d') && Z.odd m) then m + 1 else m in
    let m2 := if m1 =? 2 ^ 24 then 2 ^ 23 else m1 in
    let q2 := if m1 =? 2 ^ 24 then qe + 1 else qe in
    if m2 =? 0 then S754_zero neg
    else if 104 <? q2 then S754_infinity neg
    else S754_finite neg (Z.to_pos m2) q2.

(** The rational [mant * 10^k] as a fraction. *)
Definition dec_num (mant k : Z) : Z := if 0 <=? k then mant * 10 ^ k else mant.
Definition dec_den (k : Z) : Z := if 0 <=? k then 1 else 10 ^ (- k).

Definition round32_dec (neg : bool) (mant k : Z) : float32 :=
  round32 neg (dec_num mant k) (dec_den k).

(** A decimal literal: optional sign, digits, optional fraction, optional
    exponent.  Splits [s] at the first byte satisfying [p]. *)
Definition before (p : ascii -> bool) (s : string) : string :=
  take (span_len (fun c => negb (p c)) s) s.
Definition after (p : ascii -> bool) (s : string) : string :=
  drop (span_len (fun c => negb (p c)) s) s.

Definition is_e (c : ascii) : bool := Ascii.eqb c "e" || Ascii.eqb c "E".
Definition is_dot (c : ascii) : bool := Ascii.eqb c ".".

(** The signed decimal exponent after the letter e. *)
Definition parse_exp (s : string) : option Z :=
  match s with
  | EmptyString => Some 0
  | String _ (String "-" ds) =>
      match parse_digits ds with Some n => Some (- n) | None => None end
  | String _ (String "+" ds) => parse_digits ds
  | String _ ds => parse_digits ds
  end.

(** Mantissa digits and decimal exponent of an unsigned literal. *)
Definition parse_decimal (s : string) : option (Z * Z) :=
  let m := before is_e s in
  let ip := before is_dot m in
  let fp := drop 1 (after is_dot m) in
  let has_dot := negb (String.eqb (after is_dot m) EmptyString) in
  if has_dot && String.eqb fp EmptyString && String.eqb ip EmptyString then None
  else
    match digits_value 0 ip, digits_value 0 fp, parse_exp (after is_e s) with
    | Some i, Some f, Some x =>
        if String.eqb ip EmptyString && String.eqb fp EmptyString then None
        else
          let fl := Z.of_nat (String.length fp) in
          Some (i * 10 ^ fl + f, x - fl)
    | _, _, _ => None
    end.

(** [strconv.ParseFloat(s, 32)] on decimal literals: the nearest binary32
    number; [None] for a syntax error and for a value that rounds to
    infinity (the library's range error). *)
Definition ParseFloat32 (s : string) : option float32 :=
  let go (neg : bool) (u : string) :=
    match parse_decimal u with
    | Some (mant, k) =>
        match round32_dec neg mant k with
        | S754_infinity _ => None
        | f => Some f
        end
    | None => None
    end in
  match s with
  | String "-" s' => go true s'
  | String "+" s' => go false s'
  | _ => go false s
  end.

(** *** Shortest decimal of a float32

    [strconv.AppendFloat(b, f, fmt, -1, 32)] prints the decimal with the
    fewest digits that [ParseFloat] reads back as [f], and among those of
    that length the one nearest to [f]. *)

Definition f32_num (m : positive) (e : Z) : Z :=
  if 0 <=? e then Z.pos m * 2 ^ e else Z.pos m.
Definition f32_den (e : Z) : Z := if 0 <=? e then 1 else 2 ^ (- e).

(** [10^k <= num/den] *)
Definition pow10_le (k num den : Z) : bool :=
  if 0 <=? k then den * 10 ^ k <=? num else den <=? num * 10 ^ (- k).

(** floor(log10(num/den)), searched upwards from [k]. *)
Fixpoint ilog10_from (fuel : nat) (k num den : Z) : Z :=
  match fuel with
  | O => k
  | S fuel' =>
      if pow10_le (k + 1) num den then ilog10_from fuel' (k + 1) num den else k
  end.

(** Digits [c] and scale [s] of the shortest decimal [c * 10^(-s)] that
    rounds to the positive float [f = num/den]; [n] is the number of digits
    tried, 9 digits always identify a binary32 number. *)
Fixpoint shortest_from (fuel : nat) (n : Z) (f : float32) (num den k : Z)
  : Z * Z :=
  let s := n - 1 - k in
  let xn := if 0 <=? s then num * 10 ^ s else num in
  let xd := if 0 <=? s then den else den * 10 ^ (- s) in
  let lo := xn / xd in
  let r := xn mod xd in
  let hi := lo + 1 in
  let up := (xd <? 2 * r) || ((2 * r =? xd) && Z.odd lo) in
  match fuel with
  | O => (if up then hi else lo, s)
  | S fuel' =>
      let oklo := float32_eqb (round32_dec false lo (- s)) f in
      let okhi := float32_eqb (round32_dec false hi (- s)) f in
      if oklo && okhi then (if up then hi else lo, s)
      else if oklo then (lo, s)
      else if okhi then (hi, s)
      else shortest_from fuel' (n + 1) f num den k
  end.

Fixpoint strip_zeros_rev (s : list ascii) : list ascii :=
  match s with
  | "0"%char :: s' => strip_zeros_rev s'
  | _ => s
  end.

Definition strip_trailing_zeros (s : string) : string :=
  string_of_list_ascii
    (rev (strip_zeros_rev (rev (list_ascii_of_string s)))).

(** The decimal digits [d] (no trailing zero) and the position [dp] of the
    decimal point: the value is 0.d * 10^dp. *)
Definition shortest_digits (m : positive) (e : Z) : string * Z :=
  let num := f32_num m e in
  let den := f32_den e in
  let k := ilog10_from 100 (-46) num den in
  let '(c, s) := shortest_from 8 1 (S754_finite false m e) num den k in
  let ds := FormatInt c in
  (strip_trailing_zeros ds, Z.of_nat (String.length ds) - s).

Fixpoint zeros (n : nat) : string :=
  match n with
  | O => EmptyString
  | S n' => String "0" (zeros n')
  end.

(** The format [%f] with the shortest digits. *)
Definition fmtF (d : string) (dp : Z) : string :=
  let nd := Z.of_nat (String.length d) in
  if dp <=? 0 then "0." ++ zeros (Z.to_nat (- dp)) ++ d
  else if nd <=? dp then d ++ zeros (Z.to_nat (dp - nd))
  else take (Z.to_nat dp) d ++ "." ++ drop (Z.to_nat dp) d.

(** The format [%e] with the shortest digits: the exponent has at least
    two digits. *)
Definition fmtE (d : string) (dp : Z) : string :=
  let x := dp - 1 in
  let xs := FormatInt (Z.abs x) in
  take 1 d
  ++ (if (String.length d <=? 1)%nat then EmptyString else "." ++ drop 1 d)
  ++ "e" ++ (if x <? 0 then "-" else "+")
  ++ (if Z.abs x <? 10 then "0" else EmptyString) ++ xs.

(** [x < y] and [x >= y] for positive finite floats, by their fractions. *)
Definition f32_pos_ltb (m : positive) (e : Z) (n : positive) (f : Z) : bool :=
  f32_num m e * f32_den f <? f32_num n f * f32_den e.

End Float32.



End Strconv.

Module Reflect.

(** [reflect.StructTag.Lookup]: a tag is a space-separated list of pairs
    key, colon, value in double quotes.  For a tag that is not in that
    form the documentation leaves the result open; the library's loop,
    which is followed here, stops at the first pair that is not in the
    form and yields no value. *)
Section Lookup.

Variable Unquote : string -> option string.

(** The byte test of the scan to the colon: above the space, and none
    of colon, double quote, DEL (0x7f). *)
Definition name_byte (c : ascii) : bool :=
  (32 <? byte_of c) && negb (Ascii.eqb c ":") && negb (Ascii.eqb c dquote)
  && negb (byte_of c =? 127).

Definition is_space (c : ascii) : bool := Ascii.eqb c " ".

(** The scan of the quoted value: [i := 1], then while [i < len(tag)]
    and [tag[i]] is not the double quote, skip one byte, two after a
    backslash. *)
Fixpoint scan_quoted (fuel : nat) (tag : string) (i : nat) : nat :=
  match fuel with
  | O => i
  | S fuel' =>
      match at_ tag i with
      | None => i
      | Some c =>
          if Ascii.eqb c dquote then i
          else if Ascii.eqb c bslash then scan_quoted fuel' tag (i + 2)
          else scan_quoted fuel' tag (i + 1)
      end
  end.

(** One turn of the loop removes at least one byte of [tag], so
    [length tag] turns are enough. *)
Fixpoint lookup_loop (fuel : nat) (tag key : string) : option string :=
  match fuel with
  | O => None
  | S fuel' =>
      let tag := drop (span_len is_space tag) tag in
      if String.eqb tag EmptyString then None
      else
        let i := span_len name_byte tag in
        if (i =? 0) || (String.length tag <=? i + 1)
           || negb (is_byte ":" (at_ tag i))
           || negb (is_byte dquote (at_ tag (i + 1)))
        then None
        else
          let name := take i tag in
          let tag := drop (i + 1) tag in
          let i := scan_quoted (String.length tag) tag 1 in
          if String.length tag <=? i then None
          else
            let qvalue := take (i + 1) tag in
            let tag := drop (i + 1) tag in
            if String.eqb key name then Unquote qvalue
            else lookup_loop fuel' tag key
  end.

Definition Lookup (tag key : string) : option string :=
  lookup_loop (S (String.length tag)) tag key.

(** [reflect.StructTag.Get] *)
Definition Get (tag key : string) : string :=
  match Lookup tag key with
  | Some v => v
  | None => EmptyString
  end.

End Lookup.

End Reflect.

(** ** UTF-8, as [unicode/utf8] reads and writes it *)

Module Utf8.

Definition in_range (lo hi : nat) (o : option ascii) : bool :=
  match o with
  | Some c => (lo <=? byte_of c) && (byte_of c <=? hi)
  | None => false
  end.

(** The size of the well-formed UTF-8 sequence that [s] starts with;
    [0] when the first byte does not start one ([utf8.DecodeRune] then
    yields the error rune with size 1). *)
Definition seq_len (s : string) : nat :=
  match s with
  | EmptyString => 0
  | String c _ =>
      let b := byte_of c in
      let cont (i : nat) := in_range 128 191 (at_ s i) in
      if b <? 128 then 1
      else if (194 <=? b) && (b <=? 223) then if cont 1 then 2 else 0
      else if b =? 224 then
        if in_range 160 191 (at_ s 1) && cont 2 then 3 else 0
      else if b =? 237 then
        if in_range 128 159 (at_ s 1) && cont 2 then 3 else 0
      else if (225 <=? b) && (b <=? 239) then
        if cont 1 && cont 2 then 3 else 0
      else if b =? 240 then
        if in_range 144 191 (at_ s 1) && cont 2 && cont 3 then 4 else 0
      else if (241 <=? b) && (b <=? 243) then
        if cont 1 && cont 2 && cont 3 then 4 else 0
      else if b =? 244 then
        if in_range 128 143 (at_ s 1) && cont 2 && cont 3 then 4 else 0
      else 0
  end.

Definition byte (n : nat) : string := String (ascii_of_nat n) EmptyString.

(** U+FFFD, the replacement character. *)
Definition replacement : string := byte 239 ++ byte 191 ++ byte 189.

(** [utf8.EncodeRune]: surrogates and values above U+10FFFF are written
    as the replacement character. *)
Definition EncodeRune (r : N) : string :=
  let b (n : N) := byte (N.to_nat n) in
  (if r <? 128 then b r
   else if r <? 2048 then b (192 + r / 64) ++ b (128 + r mod 64)
   else if (55296 <=? r) && (r <=? 57343) then replacement
   else if r <? 65536 then
     b (224 + r / 4096) ++ b (128 + (r / 64) mod 64) ++ b (128 + r mod 64)
   else if r <? 1114112 then
     b (240 + r / 262144) ++ b (128 + (r / 4096) mod 64)
     ++ b (128 + (r / 64) mod 64) ++ b (128 + r mod 64)
   else replacement)%N.

End Utf8.

(** ** JSON texts, as [encoding/json] scans them *)

Module Json.

(** A JSON value.  A number keeps its literal, as the decoder does, and is
    converted when the target type is known; a string is held unquoted. *)
#[warnings="-register-all"]
Inductive value : Type :=
| Null
| Bool (b : bool)
| Number (lit : string)
| Str (s : string)
| Array (vs : list value)
| Object (ms : list (string * value)).

Definition is_ws (c : ascii) : bool :=
  Ascii.eqb c " " || Ascii.eqb c "009" || Ascii.eqb c "010" || Ascii.eqb c "013".

Definition skip_ws (s : string) : string := drop (span_len is_ws s) s.

Definition starts (c : ascii) (s : string) : bool := is_byte c (at_ s 0).

(** *** Numbers: an optional minus, an integer part without a leading
    zero, an optional fraction, an optional exponent. *)

Definition is_digit19 (c : ascii) : bool :=
  (49 <=? byte_of c) && (byte_of c <=? 57).

Definition scan_int (s : string) : option nat :=
  match s with
  | String "0" _ => Some 1
  | String c _ => if is_digit19 c then Some (span_len Strconv.is_digit s) else None
  | EmptyString => None
  end.

Definition scan_frac (s : string) : option nat :=
  match s with
  | String "." s' =>
      match span_len Strconv.is_digit s' with
      | O => None
      | n => Some (S n)
      end
  | _ => Some 0
  end.

Definition is_sign (c : ascii) : bool := Ascii.eqb c "+" || Ascii.eqb c "-".

Definition scan_exp (s : string) : option nat :=
  match s with
  | String c s' =>
      if Strconv.is_e c then
        let k := match s' with
                 | String d _ => if is_sign d then 1 else 0
                 | EmptyString => 0
                 end in
        match span_len Strconv.is_digit (drop k s') with
        | O => None
        | n => Some (S (k + n))
        end
      else Some 0
  | EmptyString => Some 0
  end.

(** The length of the number literal that [s] starts with. *)
Definition scan_number (s : string) : option nat :=
  let k := if starts "-" s then 1 else 0 in
  match scan_int (drop k s) with
  | None => None
  | Some i =>
      match scan_frac (drop (k + i) s) with
      | None => None
      | Some f =>
          match scan_exp (drop (k + i + f) s) with
          | None => None
          | Some x => Some (k + i + f + x)
          end
      end
  end.

(** *** Strings *)

Definition hex_val (c : ascii) : option N :=
  let b := byte_of c in
  if (48 <=? b) && (b <=? 57) then Some (N.of_nat (b - 48))
  else if (97 <=? b) && (b <=? 102) then Some (N.of_nat (b - 87))
  else if (65 <=? b) && (b <=? 70) then Some (N.of_nat (b - 55))
  else None.

(** [getu4]: the code unit of an escape backslash, u, four hex digits at
    the start of [s]. *)
Definition getu4 (s : string) : option N :=
  match s with
  | String b (String u (String h1 (String h2 (String h3 (String h4 _))))) =>
      if Ascii.eqb b bslash && Ascii.eqb u "u" then
        match hex_val h1, hex_val h2, hex_val h3, hex_val h4 with
        | Some a, Some b, Some c, Some d =>
            Some (a * 4096 + b * 256 + c * 16 + d)%N
        | _, _, _, _ => None
        end
      else None
  | _ => None
  end.

(** The length of the string body up to its closing double quote ([s] is
    the text after the opening one): control bytes are refused, an escape
    is one of the eight short ones or u with four hex digits. *)
Fixpoint scan_string (fuel : nat) (s : string) : option nat :=
  match fuel with
  | O => None
  | S fuel' =>
      match s with
      | EmptyString => None
      | String c s' =>
          if Ascii.eqb c dquote then Some 0
          else if byte_of c <? 32 then None
          else if Ascii.eqb c bslash then
            match s' with
            | EmptyString => None
            | String e s'' =>
                if Ascii.eqb e "u" then
                  match getu4 s with
                  | Some _ =>
                      match scan_string fuel' (drop 6 s) with
                      | Some n => Some (6 + n)
                      | None => None
                      end
                  | None => None
                  end
                else if Ascii.eqb e dquote || Ascii.eqb e bslash || Ascii.eqb e "/"
                        || Ascii.eqb e "b" || Ascii.eqb e "f" || Ascii.eqb e "n"
                        || Ascii.eqb e "r" || Ascii.eqb e "t" then
                  match scan_string fuel' s'' with
                  | Some n => Some (2 + n)
                  | None => None
                  end
                else None
            end
          else
            match scan_string fuel' s' with
            | Some n => Some (1 + n)
            | None => None
            end
      end
  end.

Definition is_surrogate (r : N) : bool := ((55296 <=? r) && (r <? 57344))%N.

(** [utf16.DecodeRune], with [None] for the replacement character. *)
Definition decode_surrogates (r1 : N) (o : option N) : option N :=
  match o with
  | Some r2 =>
      if ((55296 <=? r1) && (r1 <? 56320) && (56320 <=? r2) && (r2 <? 57344))%N
      then Some ((r1 - 55296) * 1024 + (r2 - 56320) + 65536)%N
      else None
  | None => None
  end.

(** [unquote]: the bytes a scanned string body stands for.  Escapes are
    replaced, an unpaired surrogate escape and every byte that is not part
    of well-formed UTF-8 become U+FFFD. *)
Fixpoint unquote (fuel : nat) (s : string) : string :=
  match fuel with
  | O => EmptyString
  | S fuel' =>
      match s with
      | EmptyString => EmptyString
      | String c s' =>
          if Ascii.eqb c bslash then
            match s' with
            | EmptyString => EmptyString
            | String e s'' =>
                if Ascii.eqb e "u" then
                  match getu4 s with
                  | Some rr =>
                      if is_surrogate rr then
                        match decode_surrogates rr (getu4 (drop 6 s)) with
                        | Some dec =>
                            Utf8.EncodeRune dec ++ unquote fuel' (drop 12 s)
                        | None =>
                            Utf8.replacement ++ unquote fuel' (drop 6 s)
                        end
                      else Utf8.EncodeRune rr ++ unquote fuel' (drop 6 s)
                  | None => EmptyString
                  end
                else
                  let r := if Ascii.eqb e "b" then "008"%char
                           else if Ascii.eqb e "f" then "012"%char
                           else if Ascii.eqb e "n" then "010"%char
                           else if Ascii.eqb e "r" then "013"%char
                           else if Ascii.eqb e "t" then "009"%char
                           else e in
                  String r (unquote fuel' s'')
            end
          else
            match Utf8.seq_len s with
            | O => Utf8.replacement ++ unquote fuel' s'
            | n => take n s ++ unquote fuel' (drop n s)
            end
      end
  end.

(** A string at the start of [s]: the unquoted bytes and the rest. *)
Definition parse_string (s : string) : option (string * string) :=
  match s with
  | String c s' =>
      if Ascii.eqb c dquote then
        match scan_string (String.length s') s' with
        | Some n => Some (unquote n (take n s'), drop (S n) s')
        | None => None
        end
      else None
  | EmptyString => None
  end.

(** *** Values

    Every array and object that is opened takes one level of nesting; the
    scanner refuses a text nested deeper than [maxNestingDepth]. *)

Definition maxNestingDepth : nat := 100 * 100.

Fixpoint parse_value (depth : nat) (s : string) {struct depth}
  : option (value * string) :=
  let s := skip_ws s in
  match s with
  | EmptyString => None
  | String c s' =>
      if Ascii.eqb c "{" then
        match depth with
        | O => None
        | S d =>
            let s1 := skip_ws s' in
            if starts "}" s1 then Some (Object [], drop 1 s1)
            else
              (fix members (n : nat) (s : string) (acc : list (string * value))
                 {struct n} : option (value * string) :=
                 match n with
                 | O => None
                 | S n' =>
                     match parse_string (skip_ws s) with
                     | None => None
                     | Some (k, s) =>
                         let s := skip_ws s in
                         if starts ":" s then
                           match parse_value d (drop 1 s) with
                           | None => None
                           | Some (v, s) =>
                               let s := skip_ws s in
                               if starts "," s then
                                 members n' (drop 1 s) ((k, v) :: acc)
                               else if starts "}" s then
                                 Some (Object (rev ((k, v) :: acc)), drop 1 s)
                               else None
                           end
                         else None
                     end
                 end) (String.length s1) s1 []
        end
      else if Ascii.eqb c "[" then
        match depth with
        | O => None
        | S d =>
            let s1 := skip_ws s' in
            if starts "]" s1 then Some (Array [], drop 1 s1)
            else
              (fix elements (n : nat) (s : string) (acc : list value)
                 {struct n} : option (value * string) :=
                 match n with
                 | O => None
                 | S n' =>
                     match parse_value d s with
                     | None => None
                     | Some (v, s) =>
                         let s := skip_ws s in
                         if starts "," s then elements n' (drop 1 s) (v :: acc)
                         else if starts "]" s then
                           Some (Array (rev (v :: acc)), drop 1 s)
                         else None
                     end
                 end) (String.length s1) s1 []
        end
      else if Ascii.eqb c dquote then
        match parse_string s with
        | Some (t, r) => Some (Str t, r)
        | None => None
        end
      else if Ascii.eqb c "-" || Strconv.is_digit c then
        match scan_number s with
        | Some n => Some (Number (take n s), drop n s)
        | None => None
        end
      else if String.prefix "true" s then Some (Bool true, drop 4 s)
      else if String.prefix "false" s then Some (Bool false, drop 5 s)
      else if String.prefix "null" s then Some (Null, drop 4 s)
      else None
  end.

(** [checkValid] and the scan of the decoder: one value, with white space
    around it and nothing else. *)
Definition parse (data : string) : option value :=
  match parse_value maxNestingDepth data with
  | Some (v, r) => if String.eqb (skip_ws r) EmptyString then Some v else None
  | None => None
  end.

(** *** Writing strings

    The encoder (with HTML escaping, the default of [Marshal]) copies the
    bytes from the space upwards except the double quote, the backslash
    and the characters less-than, greater-than and ampersand; it writes
    a short escape for the double quote, the backslash, backspace, form
    feed, newline, carriage return and tab, and a u escape for the other
    ASCII bytes, for bytes that are not UTF-8 (as U+FFFD) and for U+2028
    and U+2029. *)

Definition hex_digit (n : nat) : ascii :=
  if n <? 10 then ascii_of_nat (48 + n) else ascii_of_nat (87 + n).

Definition u00 (b : nat) : string :=
  String bslash ("u00" ++ String (hex_digit (b / 16)) (String (hex_digit (b mod 16)) EmptyString)).

Definition escape_ascii (c : ascii) : string :=
  let b := byte_of c in
  if Ascii.eqb c bslash || Ascii.eqb c dquote then String bslash (String c EmptyString)
  else if b =? 8 then String bslash "b"
  else if b =? 12 then String bslash "f"
  else if b =? 10 then String bslash "n"
  else if b =? 13 then String bslash "r"
  else if b =? 9 then String bslash "t"
  else if (b <? 32) || Ascii.eqb c "<" || Ascii.eqb c ">" || Ascii.eqb c "&" then u00 b
  else String c EmptyString.

Definition line_sep : string := Utf8.byte 226 ++ Utf8.byte 128 ++ Utf8.byte 168.
Definition para_sep : string := Utf8.byte 226 ++ Utf8.byte 128 ++ Utf8.byte 169.

Fixpoint escape (fuel : nat) (s : string) : string :=
  match fuel with
  | O => EmptyString
  | S fuel' =>
      match s with
      | EmptyString => EmptyString
      | String c s' =>
          if byte_of c <? 128 then escape_ascii c ++ escape fuel' s'
          else
            match Utf8.seq_len s with
            | O => String bslash "ufffd" ++ escape fuel' s'
            | n =>
                (if String.eqb (take n s) line_sep then String bslash "u2028"
                 else if String.eqb (take n s) para_sep then String bslash "u2029"
                 else take n s) ++ escape fuel' (drop n s)
            end
      end
  end.

Definition quote (s : string) : string :=
  String dquote (escape (String.length s) s) ++ String dquote EmptyString.

(** *** Marshal and Unmarshal

    The library walks the Go type by reflection.  Here every Go type the
    program uses has a [Codec]: its zero value, its encoder, and the
    decoder of one JSON value into a variable of the type, which returns
    the variable's new contents and a type error if there was one (the
    decoder goes on after a type error and reports the first). *)

Inductive error : Type :=
| SyntaxError
| UnmarshalTypeError (what : string)
| UnsupportedValueError (what : string).

(** [saveError] keeps the first error. *)
Definition first_error (a b : option error) : option error :=
  match a with
  | Some _ => a
  | None => b
  end.

Class Codec (T : Type) : Type := {
  zero : T;
  encodeValue : T -> string + error;
  decodeValue : value -> T -> T * option error
}.

(** What an [UnmarshalTypeError] calls a JSON value that does not fit. *)
Definition describe (j : value) : string :=
  match j with
  | Null => "null"
  | Bool _ => "bool"
  | Number _ => "number"
  | Str _ => "string"
  | Array _ => "array"
  | Object _ => "object"
  end.

Definition mismatch {T : Type} (j : value) (old : T) : T * option error :=
  (old, Some (UnmarshalTypeError (describe j))).

#[global] Instance string_codec : Codec string := {|
  zero := EmptyString;
  encodeValue s := inl (quote s);
  decodeValue j old :=
    match j with
    | Null => (old, None)
    | Str s => (s, None)
    | _ => mismatch j old
    end
|}.

#[global] Instance bool_codec : Codec bool := {|
  zero := false;
  encodeValue b := inl (if b then "true" else "false");
  decodeValue j old :=
    match j with
    | Null => (old, None)
    | Bool b => (b, None)
    | _ => mismatch j old
    end
|}.

(** Go's [int]. *)
#[global] Instance int_codec : Codec Z := {|
  zero := 0%Z;
  encodeValue z := inl (Strconv.FormatInt z);
  decodeValue j old :=
    match j with
    | Null => (old, None)
    | Number lit =>
        match Strconv.ParseInt lit with
        | Some n => (n, None)
        | None => (old, Some (UnmarshalTypeError ("number " ++ lit)))
        end
    | _ => mismatch j old
    end
|}.

(** The exponent of [%e] has two digits at least; the encoder removes the
    zero of a one-digit exponent. *)
Definition clean_exp (b : string) : string :=
  let n := String.length b in
  if (4 <=? n) && is_byte "e" (at_ b (n - 4))
     && (is_byte "-" (at_ b (n - 3)) || is_byte "+" (at_ b (n - 3)))
     && is_byte "0" (at_ b (n - 2))
  then take (n - 2) b ++ drop (n - 1) b
  else b.

Definition pos_ltb (x y : Strconv.float32) : bool :=
  match x, y with
  | S754_finite _ m e, S754_finite _ n f => Strconv.f32_pos_ltb m e n f
  | _, _ => false
  end.

(** The float encoder: [%f], and [%e] below 1e-6 and from 1e21 on (both
    as float32). *)
Definition encodeFloat32 (f : Strconv.float32) : string + error :=
  match f with
  | S754_zero neg => inl (if neg then "-0" else "0")
  | S754_finite neg m e =>
      let '(d, dp) := Strconv.shortest_digits m e in
      let a := S754_finite false m e in
      let use_e := pos_ltb a (Strconv.round32_dec false 1 (-6))
                   || negb (pos_ltb a (Strconv.round32_dec false 1 21)) in
      inl ((if neg then "-" else EmptyString)
           ++ (if use_e then clean_exp (Strconv.fmtE d dp) else Strconv.fmtF d dp))
  | S754_infinity neg => inr (UnsupportedValueError (if neg then "-Inf" else "+Inf"))
  | S754_nan => inr (UnsupportedValueError "NaN")
  end.

#[global] Instance float32_codec : Codec Strconv.float32 := {|
  zero := S754_zero false;
  encodeValue := encodeFloat32;
  decodeValue j old :=
    match j with
    | Null => (old, None)
    | Number lit =>
        match Strconv.ParseFloat32 lit with
        | Some f => (f, None)
        | None => (old, Some (UnmarshalTypeError ("number " ++ lit)))
        end
    | _ => mismatch j old
    end
|}.

(** The texts of an array, of a member of an object, and of an object. *)
Definition array_text (elems : list string) : string :=
  "[" ++ String.concat "," elems ++ "]".
Definition member_text (key text : string) : string :=
  quote key ++ ":" ++ text.
Definition object_text (members : list string) : string :=
  "{" ++ String.concat "," members ++ "}".

(** A slice: [None] is the nil slice. *)
Definition slice (T : Type) : Type := option (list T).

Section Slice.
Context {T : Type} `{Codec T}.

Fixpoint encode_elems (l : list T) : list string + error :=
  match l with
  | [] => inl []
  | x :: r =>
      match encodeValue x with
      | inr e => inr e
      | inl a =>
          match encode_elems r with
          | inr e => inr e
          | inl bs => inl (a :: bs)
          end
      end
  end.

(** The slice is reset to length zero and every element of the array is
    appended, decoded into a zero element. *)
Fixpoint decode_elems (vs : list value) : list T * option error :=
  match vs with
  | [] => ([], None)
  | v :: r =>
      let '(x, e1) := decodeValue v zero in
      let '(xs, e2) := decode_elems r in
      (x :: xs, first_error e1 e2)
  end.

#[global] Instance slice_codec : Codec (slice T) := {|
  zero := None;
  encodeValue s :=
    match s with
    | None => inl "null"
    | Some l =>
        match encode_elems l with
        | inl bs => inl (array_text bs)
        | inr e => inr e
        end
    end;
  decodeValue j old :=
    match j with
    | Null => (None, None)
    | Array vs => let '(xs, e) := decode_elems vs in (Some xs, e)
    | _ => mismatch j old
    end
|}.
End Slice.

(** *** Struct types

    A struct type is described by its fields in the order of their
    declaration: the Go name, the raw tag, the field's codec and its
    accessors. *)

Record field (S : Type) : Type := Field {
  Name : string;
  Tag : string;
  ftype : Type;
  fcodec : Codec ftype;
  get : S -> ftype;
  set : ftype -> S -> S
}.
Arguments Field {S} Name Tag {ftype fcodec} get set.
Arguments Name {S} _.
Arguments Tag {S} _.
Arguments ftype {S} _.
Arguments fcodec {S} _.
Arguments get {S} _ _.
Arguments set {S} _ _ _.

(** [reflect.StructField.IsExported]: the name starts with an upper-case
    letter (the names of this program are ASCII). *)
Definition IsExported (name : string) : bool :=
  match name with
  | String c _ => (65 <=? byte_of c) && (byte_of c <=? 90)
  | EmptyString => false
  end.

(** [isValidTag]: letters, digits and some punctuation (bytes above 127
    are taken as letters). *)
Definition valid_tag_byte (c : ascii) : bool :=
  let b := byte_of c in
  ((48 <=? b) && (b <=? 57)) || ((65 <=? b) && (b <=? 90))
  || ((97 <=? b) && (b <=? 122)) || (128 <=? b)
  || existsb (Ascii.eqb c) (list_ascii_of_string "!#$%&()*+-./:;<=>?@[]^_{|}~ ").

Definition isValidTag (s : string) : bool :=
  negb (String.eqb s EmptyString)
  && (span_len valid_tag_byte s =? String.length s).

Definition is_comma (c : ascii) : bool := Ascii.eqb c ",".

(** One entry of [typeFields]: the JSON name of a field and whether the
    name comes from the tag.  [None]: the field takes no part (it is not
    exported, or its tag is a single hyphen). *)
Definition wire_name {S : Type} (f : field S) : option (string * bool) :=
  if negb (IsExported (Name f)) then None
  else
    let tag := Reflect.Get Strconv.Unquote (Tag f) "json" in
    if String.eqb tag "-" then None
    else
      let name := Strconv.before is_comma tag in
      if isValidTag name then Some (name, true) else Some (Name f, false).

Definition entries {S : Type} (fs : list (field S))
  : list (string * bool * field S) :=
  flat_map (fun f => match wire_name f with
                     | Some (n, t) => [(n, t, f)]
                     | None => []
                     end) fs.

(** [dominantField], for fields of one struct: of several fields with one
    JSON name the only tagged one wins, otherwise all are dropped. *)
Definition dominant {S : Type} (es : list (string * bool * field S))
  (e : string * bool * field S) : bool :=
  let same := filter (fun e' => String.eqb (fst (fst e')) (fst (fst e))) es in
  match same with
  | [_] => true
  | _ => snd (fst e) && (List.length (filter (fun e' => snd (fst e')) same) =? 1)
  end.

(** [typeFields]: the JSON name of every field that is encoded and
    decoded, in the order of declaration. *)
Definition typeFields {S : Type} (fs : list (field S)) : list (string * field S) :=
  let es := entries fs in
  map (fun e => (fst (fst e), snd e)) (filter (dominant es) es).

(** [foldName]: ASCII letters to upper case; the long s (U+017F) and the
    Kelvin sign (U+212A), whose case folding reaches ASCII, to S and K.
    Other bytes are kept: no further character folds to ASCII. *)
Fixpoint foldName (s : string) : string :=
  match s with
  | EmptyString => EmptyString
  | String c s' =>
      let b := byte_of c in
      if (97 <=? b) && (b <=? 122) then String (ascii_of_nat (b - 32)) (foldName s')
      else
        match s' with
        | String c1 s1 =>
            if (b =? 197) && (byte_of c1 =? 191) then String "S" (foldName s1)
            else
              match s1 with
              | String c2 s2 =>
                  if (b =? 226) && (byte_of c1 =? 132) && (byte_of c2 =? 170)
                  then String "K" (foldName s2)
                  else String c (foldName s')
              | EmptyString => String c (foldName s')
              end
        | EmptyString => String c EmptyString
        end
  end.

(** A key goes to a name when they are equal up to case. *)
Definition goes_to (name key : string) : bool :=
  String.eqb (foldName name) (foldName key).

(** No key of the members goes to the name. *)
Definition absent (name : string) (ms : list (string * value)) : bool :=
  forallb (fun m => negb (goes_to name (fst m))) ms.

(** The codec reports an error for the JSON value, whatever the variable
    holds. *)
Definition rejects {T : Type} (c : Codec T) (j : value) : Prop :=
  forall old : T, snd (@decodeValue T c j old) <> None.

Section Struct.
Context {S : Type}.
Variable zeroS : S.
Variable fs : list (field S).

(** The field a key of an object goes to: the field of that very name,
    or else the first field whose name is the key up to case. *)
Definition find_field (key : string) : option (field S) :=
  match find (fun e => String.eqb (fst e) key) (typeFields fs) with
  | Some e => Some (snd e)
  | None =>
      match find (fun e => String.eqb (foldName (fst e)) (foldName key))
                 (typeFields fs) with
      | Some e => Some (snd e)
      | None => None
      end
  end.

Fixpoint encode_fields (es : list (string * field S)) (s : S)
  : list string + error :=
  match es with
  | [] => inl []
  | (n, f) :: r =>
      match @encodeValue _ (fcodec f) (get f s) with
      | inr e => inr e
      | inl a =>
          match encode_fields r s with
          | inr e => inr e
          | inl bs => inl (member_text n a :: bs)
          end
      end
  end.

(** The members of an object are decoded in their order, each into the
    field its key goes to; a member whose key goes to no field is
    skipped. *)
Fixpoint decode_members (ms : list (string * value)) (s : S) : S * option error :=
  match ms with
  | [] => (s, None)
  | (k, v) :: r =>
      match find_field k with
      | None => decode_members r s
      | Some f =>
          let '(x, e1) := @decodeValue _ (fcodec f) v (get f s) in
          let '(s', e2) := decode_members r (set f x s) in
          (s', first_error e1 e2)
      end
  end.

Definition struct_codec : Codec S := {|
  zero := zeroS;
  encodeValue s :=
    match encode_fields (typeFields fs) s with
    | inl bs => inl (object_text bs)
    | inr e => inr e
    end;
  decodeValue j old :=
    match j with
    | Null => (old, None)
    | Object ms => decode_members ms old
    | _ => mismatch j old
    end
|}.

End Struct.

(** [json.Marshal(v)] *)
Definition Marshal {T : Type} `{Codec T} (v : T) : string + error :=
  encodeValue v.

(** [json.Unmarshal(data, &v)]: the contents of [v] afterwards, and the
    error.  A text that is not valid JSON leaves [v] as it was. *)
Definition Unmarshal {T : Type} `{Codec T} (data : string) (v : T)
  : T * option error :=
  match parse data with
  | None => (v, Some SyntaxError)
  | Some j => decodeValue j v
  end.

End Json.

(** ** The process and [net/http]

    A run of the program is the sequence of the library calls with an
    effect outside the program, and how the run ends. *)

Module Http.

(** A Go [error] value. *)
Inductive goerror : Type :=
| JsonError (e : Json.error)
| IoError (msg : string).

Definition wrap (o : option Json.error) : option goerror :=
  match o with
  | Some e => Some (JsonError e)
  | None => None
  end.

(** An incoming request: [ReadAll] is what [ioutil.ReadAll(r.Body)]
    returns, the bytes read and the error. *)
Record Request : Type := {
  Method : string;
  Path : string;
  ReqHeader : list (string * string);
  ReadAll : string * option goerror
}.

(** A response received by the client, with the result of reading its
    body. *)
Record Response : Type := {
  StatusCode : nat;
  RespHeader : list (string * string);
  RespReadAll : string * option goerror
}.

(** What the library does outside the program's text: the message of an
    error, the content type sniffed from a body, and the network. *)
Record runtime : Type := {
  ErrorText : goerror -> string;
  DetectContentType : string -> string;
  ListenFails : option goerror;
  RoundTrip : string -> string -> list (string * string) -> string
              -> Response + goerror
}.

#[warnings="-register-all"]
Inductive event : Type :=
| LogFatal (prefix : string) (err : goerror)
| LogPrintf (format : string) (arg : Strconv.float32 * Strconv.float32)
| Println (line : string)
| SpewDump (data : string)
| HandleFunc (pattern : string)
| ListenAndServe (addr : string)
| ClientDo (method url : string) (header : list (string * string)) (body : string)
| BodyClose
| Go (spawned : list event).

(** How a run ends: it returns, the process exits with a status, or it
    stays serving. *)
Inductive ending (A : Type) : Type :=
| Returns (a : A)
| Exits (code : nat)
| Serves.
Arguments Returns {A} a.
Arguments Exits {A} code.
Arguments Serves {A}.

Definition M (A : Type) : Type := list event * ending A.

Definition ret {A : Type} (a : A) : M A := ([], Returns a).

Definition bind {A B : Type} (m : M A) (k : A -> M B) : M B :=
  match m with
  | (t, Returns a) => let '(t', r) := k a in ((t ++ t')%list, r)
  | (t, Exits c) => (t, Exits c)
  | (t, Serves) => (t, Serves)
  end.

Definition emit (e : event) : M unit := ([e], Returns tt).

(** [os.Exit] *)
Definition Exit {A : Type} (code : nat) : M A := ([], Exits code).

(** [log.Fatal(prefix, err)]: the line is logged, then [os.Exit(1)]. *)
Definition Fatal {A : Type} (prefix : string) (err : goerror) : M A :=
  ([LogFatal prefix err], Exits 1).

Declare Scope go_scope.
Delimit Scope go_scope with go.
Notation "x <- m ;; k" := (bind m (fun x => k))
  (at level 61, m at next level, right associativity) : go_scope.
Notation "m ;;; k" := (bind m (fun _ => k))
  (at level 61, right associativity) : go_scope.

(** *** ResponseWriter

    The header map can be changed until the header is written; the first
    [Write] writes the header with status 200, adding a sniffed
    Content-Type when none is set. *)
Record ResponseWriter : Type := {
  Header : list (string * string);
  wroteHeader : bool;
  Status : nat;
  SentHeader : list (string * string);
  Written : string
}.

Definition newResponseWriter : ResponseWriter :=
  {| Header := []; wroteHeader := false; Status := 0; SentHeader := [];
     Written := EmptyString |}.

Definition header_get (k : string) (h : list (string * string)) : option string :=
  match find (fun e => String.eqb (fst e) k) h with
  | Some e => Some (snd e)
  | None => None
  end.

(** [w.Header().Set(k, v)] *)
Definition HeaderSet (k v : string) (w : ResponseWriter) : ResponseWriter :=
  {| Header := (k, v) :: filter (fun e => negb (String.eqb (fst e) k)) (Header w);
     wroteHeader := wroteHeader w; Status := Status w;
     SentHeader := SentHeader w; Written := Written w |}.

(** [w.Write(data)] *)
Definition Write (rt : runtime) (data : string) (w : ResponseWriter)
  : ResponseWriter :=
  if wroteHeader w then
    {| Header := Header w; wroteHeader := true; Status := Status w;
       SentHeader := SentHeader w; Written := Written w ++ data |}
  else
    {| Header := Header w; wroteHeader := true; Status := 200;
       SentHeader :=
         match header_get "Content-Type" (Header w) with
         | Some _ => Header w
         | None => ("Content-Type", DetectContentType rt data) :: Header w
         end;
       Written := Written w ++ data |}.


End Http.

Definition nl : string := String "010" EmptyString.

(** ** The draft (src/json.go, first document)

    The struct fields are not exported.  The draft's [weatherHandler] and
    [main] are not well-typed Go (the request body is passed where bytes
    are expected, [os.Args] is called as a function) and have no
    embedding; [encode] and [decode] are complete. *)

Module Draft.
Import Json.

Record windData : Type := {
  direction : string;
  speed : Z
}.

Record weatherData : Type := {
  locationName : string;
  weather : string;
  temperature : Z;
  celsius : bool;
  tempForecast : slice Z;
  wind : windData
}.

Definition windData_fields : list (field windData) := [
  Field "direction" EmptyString direction
    (fun x w => {| direction := x; speed := speed w |});
  Field "speed" EmptyString speed
    (fun x w => {| direction := direction w; speed := x |})
].

#[global] Instance windData_codec : Codec windData :=
  struct_codec {| direction := zero; speed := zero |} windData_fields.

Definition weatherData_fields : list (field weatherData) := [
  Field "locationName" EmptyString locationName
    (fun x w => {| locationName := x; weather := weather w;
                   temperature := temperature w; celsius := celsius w;
                   tempForecast := tempForecast w; wind := wind w |});
  Field "weather" EmptyString weather
    (fun x w => {| locationName := locationName w; weather := x;
                   temperature := temperature w; celsius := celsius w;
                   tempForecast := tempForecast w; wind := wind w |});
  Field "temperature" EmptyString temperature
    (fun x w => {| locationName := locationName w; weather := weather w;
                   temperature := x; celsius := celsius w;
                   tempForecast := tempForecast w; wind := wind w |});
  Field "celsius" EmptyString celsius
    (fun x w => {| locationName := locationName w; weather := weather w;
                   temperature := temperature w; celsius := x;
                   tempForecast := tempForecast w; wind := wind w |});
  Field "tempForecast" "json: temp_forecast" tempForecast
    (fun x w => {| locationName := locationName w; weather := weather w;
                   temperature := temperature w; celsius := celsius w;
                   tempForecast := x; wind := wind w |});
  Field "wind" EmptyString wind
    (fun x w => {| locationName := locationName w; weather := weather w;
                   temperature := temperature w; celsius := celsius w;
                   tempForecast := tempForecast w; wind := x |})
].

#[global] Instance weatherData_codec : Codec weatherData :=
  struct_codec
    {| locationName := zero; weather := zero; temperature := zero;
       celsius := zero; tempForecast := zero; wind := zero |}
    weatherData_fields.

(** [func encode(w weatherData) ([]byte, error)] *)
Definition encode (w : weatherData) : string + error :=
  match Marshal w with
  | inr err => inr err
  | inl weatherJson => inl weatherJson
  end.

(** [func decode(weatherJson []byte) (weatherData, error)] *)
Definition decode (weatherJson : string) : weatherData * option error :=
  let w : weatherData := zero in
  Unmarshal weatherJson w.

End Draft.

(** ** The final revision (src/json.go, second document) *)

Module Final.
Import Json Http.
Local Open Scope go_scope.

Record windData : Type := {
  Direction : string;
  Speed : Z
}.

Record weatherData : Type := {
  LocationName : string;
  Weather : string;
  Temperature : Z;
  Celsius : bool;
  TempForecast : slice Z;
  Wind : windData
}.

Record loc : Type := {
  Lat : Strconv.float32;
  Lon : Strconv.float32
}.

Definition windData_fields : list (field windData) := [
  Field "Direction" "json: direction" Direction
    (fun x w => {| Direction := x; Speed := Speed w |});
  Field "Speed" "json: speed" Speed
    (fun x w => {| Direction := Direction w; Speed := x |})
].

#[global] Instance windData_codec : Codec windData :=
  struct_codec {| Direction := zero; Speed := zero |} windData_fields.

Definition weatherData_fields : list (field weatherData) := [
  Field "LocationName" "json: locationName" LocationName
    (fun x w => {| LocationName := x; Weather := Weather w;
                   Temperature := Temperature w; Celsius := Celsius w;
                   TempForecast := TempForecast w; Wind := Wind w |});
  Field "Weather" "json: weather" Weather
    (fun x w => {| LocationName := LocationName w; Weather := x;
                   Temperature := Temperature w; Celsius := Celsius w;
                   TempForecast := TempForecast w; Wind := Wind w |});
  Field "Temperature" "json: temperature" Temperature
    (fun x w => {| LocationName := LocationName w; Weather := Weather w;
                   Temperature := x; Celsius := Celsius w;
                   TempForecast := TempForecast w; Wind := Wind w |});
  Field "Celsius" "json: celsius" Celsius
    (fun x w => {| LocationName := LocationName w; Weather := Weather w;
                   Temperature := Temperature w; Celsius := x;
                   TempForecast := TempForecast w; Wind := Wind w |});
  Field "TempForecast" "json: temp_forecast" TempForecast
    (fun x w => {| LocationName := LocationName w; Weather := Weather w;
                   Temperature := Temperature w; Celsius := Celsius w;
                   TempForecast := x; Wind := Wind w |});
  Field "Wind" "json: wind" Wind
    (fun x w => {| LocationName := LocationName w; Weather := Weather w;
                   Temperature := Temperature w; Celsius := Celsius w;
                   TempForecast := TempForecast w; Wind := x |})
].

#[global] Instance weatherData_codec : Codec weatherData :=
  struct_codec
    {| LocationName := zero; Weather := zero; Temperature := zero;
       Celsius := zero; TempForecast := zero; Wind := zero |}
    weatherData_fields.

Definition loc_fields : list (field loc) := [
  Field "Lat" "json: lat" Lat (fun x l => {| Lat := x; Lon := Lon l |});
  Field "Lon" "json: lon" Lon (fun x l => {| Lat := Lat l; Lon := x |})
].

#[global] Instance loc_codec : Codec loc :=
  struct_codec {| Lat := zero; Lon := zero |} loc_fields.

(** The mock-up data of the handler. *)
Definition weather : weatherData := {|
  LocationName := "Zzyzx";
  Weather := "cloudy";
  Temperature := 31;
  Celsius := true;
  TempForecast := Some [30; 32; 29]%Z;
  Wind := {| Direction := "S"; Speed := 20 |}
|}.

(** The end of [weatherHandler], from the result of [json.Marshal]: an
    encoding error is written into the response, then the header is set
    and the bytes are written. *)
Definition reply (rt : runtime) (w : ResponseWriter) (m : string + error)
  : ResponseWriter :=
  let weatherJson := match m with inl b => b | inr _ => EmptyString end in
  let w := match m with
           | inr err => Write rt ("Error: " ++ ErrorText rt (JsonError err)) w
           | inl _ => w
           end in
  let w := HeaderSet "Content-Type" "application/json" w in
  Write rt weatherJson w.

(** [func weatherHandler(w http.ResponseWriter, r *http.Request)] *)
Definition weatherHandler (rt : runtime) (w : ResponseWriter) (r : Request)
  : M ResponseWriter :=
  let location : loc := zero in
  let '(jsn, err) := ReadAll r in
  _ <- match err with
       | Some e => Fatal "Error reading the body" e
       | None => ret tt
       end ;;
  let '(location, err) := Unmarshal jsn location in
  _ <- match err with
       | Some e => Fatal "Decoding error: " (JsonError e)
       | None => ret tt
       end ;;
  emit (LogPrintf ("Received: %v" ++ nl) (Lat location, Lon location)) ;;;
  ret (reply rt w (Marshal weather)).

(** [func server()]: the error of [ListenAndServe] is dropped. *)
Definition server (rt : runtime) : M unit :=
  emit (HandleFunc "/") ;;;
  emit (ListenAndServe ":8080") ;;;
  match ListenFails rt with
  | Some _ => ret tt
  | None => ([], Serves)
  end.


(** The location the client sends: the constants as float32. *)
Definition client_loc : loc := {|
  Lat := Strconv.round32_dec false 3514326 (-5);
  Lon := Strconv.round32_dec true 116104 (-3)
|}.

(** [func client()]: the errors of [Marshal], [NewRequest] and [ReadAll]
    are dropped. *)
Definition client (rt : runtime) : M unit :=
  let locJson := match Marshal client_loc with
                 | inl b => b
                 | inr _ => EmptyString
                 end in
  let header := [("Content-Type", "application/json")] in
  emit (ClientDo "POST" "http://localhost:8080" header locJson) ;;;
  match RoundTrip rt "POST" "http://localhost:8080" header locJson with
  | inr err => Fatal EmptyString err
  | inl resp =>
      let '(body, _) := RespReadAll resp in
      emit (Println ("Response: " ++ " " ++ body)) ;;;
      emit BodyClose
  end.

(** [func main()]: the server in a goroutine, then the client. *)
Definition main (rt : runtime) (Args : list string) : M unit :=
  emit (Go (fst (server rt))) ;;;
  client rt.

End Final.

(** ** The CLI revision (src/unnamed/part_000)

    [weatherData] and [windData] are declared as in the final revision.
    The tag of [Lon] names the key of [Lat], the handler and the client
    dump the encoded bytes, and [main] reads the command line. *)

Module Cli.
Import Json Http.
Local Open Scope go_scope.

Definition windData : Type := Final.windData.
Definition weatherData : Type := Final.weatherData.

Record loc : Type := {
  Lat : Strconv.float32;
  Lon : Strconv.float32
}.

Definition loc_fields : list (field loc) := [
  Field "Lat" "json: lat" Lat (fun x l => {| Lat := x; Lon := Lon l |});
  Field "Lon" "json: lat" Lon (fun x l => {| Lat := Lat l; Lon := x |})
].

#[global] Instance loc_codec : Codec loc :=
  struct_codec {| Lat := zero; Lon := zero |} loc_fields.

Definition weather : weatherData := Final.weather.

Definition reply (rt : runtime) (w : ResponseWriter) (m : string + error)
  : ResponseWriter :=
  let weatherJson := match m with inl b => b | inr _ => EmptyString end in
  let w := match m with
           | inr err => Write rt ("Error: " ++ ErrorText rt (JsonError err)) w
           | inl _ => w
           end in
  let w := HeaderSet "Content-Type" "application/json" w in
  Write rt weatherJson w.

(** [func weatherHandler(w http.ResponseWriter, r *http.Request)] *)
Definition weatherHandler (rt : runtime) (w : ResponseWriter) (r : Request)
  : M ResponseWriter :=
  let location : loc := zero in
  let '(jsn, err) := ReadAll r in
  _ <- match err with
       | Some e => Fatal "Error reading the body" e
       | None => ret tt
       end ;;
  let '(location, err) := Unmarshal jsn location in
  _ <- match err with
       | Some e => Fatal "Decoding error: " (JsonError e)
       | None => ret tt
       end ;;
  emit (LogPrintf ("Received: %v" ++ nl) (Lat location, Lon location)) ;;;
  let m := Marshal weather in
  emit (SpewDump (match m with inl b => b | inr _ => EmptyString end)) ;;;
  ret (reply rt w m).

(** [func server()] *)
Definition server (rt : runtime) : M unit :=
  emit (HandleFunc "/") ;;;
  emit (ListenAndServe ":8080") ;;;
  match ListenFails rt with
  | Some _ => ret tt
  | None => ([], Serves)
  end.

Definition client_loc : loc := {|
  Lat := Strconv.round32_dec false 3514326 (-5);
  Lon := Strconv.round32_dec true 116104 (-3)
|}.

(** [func client()] *)
Definition client (rt : runtime) : M unit :=
  let locJson := match Marshal client_loc with
                 | inl b => b
                 | inr _ => EmptyString
                 end in
  emit (SpewDump locJson) ;;;
  let header := [("Content-Type", "application/json")] in
  emit (ClientDo "POST" "http://localhost:8080" header locJson) ;;;
  match RoundTrip rt "POST" "http://localhost:8080" header locJson with
  | inr err => Fatal EmptyString err
  | inl resp =>
      let '(body, _) := RespReadAll resp in
      emit (Println ("Response: " ++ " " ++ body)) ;;;
      emit BodyClose
  end.

Definition usage : string :=
  "Usage:" ++ nl ++ "json server" ++ nl ++ "json client" ++ nl.

(** [func main()]; [Args] is [os.Args], the name of the program first. *)
Definition main (rt : runtime) (Args : list string) : M unit :=
  if (List.length Args <? 2)
     || (negb (String.eqb (nth 1 Args EmptyString) "server")
         && negb (String.eqb (nth 1 Args EmptyString) "client"))
  then emit (Println usage) ;;; Exit 1
  else if String.eqb (nth 1 Args EmptyString) "server" then server rt
  else client rt.

End Cli.

(** * Sample values and the texts of the wire *)

Definition draft_sample : Draft.weatherData := {|
  Draft.locationName := "Zzyzx";
  Draft.weather := "cloudy";
  Draft.temperature := 31;
  Draft.celsius := true;
  Draft.tempForecast := Some [30; 32; 29]%Z;
  Draft.wind := {| Draft.direction := "S"; Draft.speed := 20 |}
|}.

(** The encoding of a forecast: [null] for the nil slice, else the array
    of the elements in their order. *)
Definition forecast_text (s : Json.slice Z) : string :=
  match s with
  | None => "null"
  | Some l => Json.array_text (map Strconv.FormatInt l)
  end.

Definition wind_text (w : Final.windData) : string :=
  Json.object_text
    [Json.member_text "Direction" (Json.quote (Final.Direction w));
     Json.member_text "Speed" (Strconv.FormatInt (Final.Speed w))].

Definition weather_text : string :=
  q "{'LocationName':'Zzyzx','Weather':'cloudy','Temperature':31,'Celsius':true,'TempForecast':[30,32,29],'Wind':{'Direction':'S','Speed':20}}".

(** The response of the handler when it returns. *)
Definition weather_response : Http.ResponseWriter := {|
  Http.Header := [("Content-Type", "application/json")];
  Http.wroteHeader := true;
  Http.Status := 200;
  Http.SentHeader := [("Content-Type", "application/json")];
  Http.Written := weather_text
|}.

(** A runtime for the examples: the network hands the request to the
    handler of the final revision and returns what the handler wrote. *)
Definition demo_runtime : Http.runtime := {|
  Http.ErrorText := fun e => match e with
                             | Http.JsonError _ => "json: error"
                             | Http.IoError msg => msg
                             end;
  Http.DetectContentType := fun _ => "text/plain; charset=utf-8";
  Http.ListenFails := None;
  Http.RoundTrip := fun method url header body =>
    inl {| Http.StatusCode := 200;
           Http.RespHeader := [("Content-Type", "application/json")];
           Http.RespReadAll := (weather_text, None) |}
|}.

Definition post_location : Http.Request := {|
  Http.Method := "POST";
  Http.Path := "/";
  Http.ReqHeader := [("Content-Type", "application/json")];
  Http.ReadAll := (q "{'lat': 35.14326, 'lon': -116.104}", None)
|}.

Definition weatherData_names : list string :=
  ["LocationName"; "Weather"; "Temperature"; "Celsius"; "TempForecast"; "Wind"].

Definition sunny_text : string := q "{'weather': 'sunny'}".

Definition not_a_number_text : string := q "{'lat': 'not-a-number'}".


Definition client_text : string := q "{'Lat':35.14326,'Lon':-116.104}".
Definition client_header : list (string * string) :=
  [("Content-Type", "application/json")].

(** A runtime in which the listener cannot be started and the body of the
    response breaks off. *)
Definition failing_runtime : Http.runtime := {|
  Http.ErrorText := fun _ => "unsupported value";
  Http.DetectContentType := fun _ => "text/plain; charset=utf-8";
  Http.ListenFails := Some (Http.IoError "bind: address already in use");
  Http.RoundTrip := fun method url header body =>
    inl {| Http.StatusCode := 200;
           Http.RespHeader := [];
           Http.RespReadAll := ("{", Some (Http.IoError "unexpected EOF")) |}
|}.

Definition post_not_a_number : Http.Request := {|
  Http.Method := "POST";
  Http.Path := "/";
  Http.ReqHeader := [("Content-Type", "application/json")];
  Http.ReadAll := (not_a_number_text, None)
|}.


(** A JSON value that a float32 field takes without an error: [null]
    and a number in the range of float32. *)
Definition float32_accepts (j : Json.value) : bool :=
  match j with
  | Json.Null => true
  | Json.Number lit =>
      match Strconv.ParseFloat32 lit with
      | Some _ => true
      | None => false
      end
  | _ => false
  end.

(** The members of an object that go to a field of a location all carry
    a value the field takes. *)
Definition loc_accepts (ms : list (string * Json.value)) : bool :=
  forallb (fun m => if Json.goes_to "Lat" (fst m) || Json.goes_to "Lon" (fst m)
                    then float32_accepts (snd m) else true) ms.

(** A float32 that is neither infinite nor NaN. *)
Definition is_finite (f : Strconv.float32) : bool :=
  match f with
  | S754_zero _ | S754_finite _ _ _ => true
  | S754_infinity _ | S754_nan => false
  end.




(** A runtime whose server answers every request with status 500. *)
Definition broken_server_runtime : Http.runtime := {|
  Http.ErrorText := Http.ErrorText demo_runtime;
  Http.DetectContentType := Http.DetectContentType demo_runtime;
  Http.ListenFails := None;
  Http.RoundTrip := fun method url header body =>
    inl {| Http.StatusCode := 500;
           Http.RespHeader := [];
           Http.RespReadAll := ("Internal Server Error", None) |}
|}.

(** The entries of the two field tables of [loc], by name. *)
Definition final_Lat_field : Json.field Final.loc :=
  Json.Field "Lat" "json: lat" Final.Lat
    (fun x l => {| Final.Lat := x; Final.Lon := Final.Lon l |}).
Definition final_Lon_field : Json.field Final.loc :=
  Json.Field "Lon" "json: lon" Final.Lon
    (fun x l => {| Final.Lat := Final.Lat l; Final.Lon := x |}).
Definition cli_Lat_field : Json.field Cli.loc :=
  Json.Field "Lat" "json: lat" Cli.Lat
    (fun x l => {| Cli.Lat := x; Cli.Lon := Cli.Lon l |}).
Definition cli_Lon_field : Json.field Cli.loc :=
  Json.Field "Lon" "json: lat" Cli.Lon
    (fun x l => {| Cli.Lat := Cli.Lat l; Cli.Lon := x |}).

(** Two results of decoding, one for each declaration of [loc], with the
    same coordinates and the same error. *)
Definition same_loc (rc : Cli.loc * option Json.error)
  (rf : Final.loc * option Json.error) : Prop :=
  Cli.Lat (fst rc) = Final.Lat (fst rf)
  /\ Cli.Lon (fst rc) = Final.Lon (fst rf)
  /\ snd rc = snd rf.

(** A request the handler takes: its body is read without an error and
    is the text of [null] or of an object whose members for Lat and Lon
    carry [null] or a float32 number. *)
Definition request_accepted (r : Http.Request) : Prop :=
  snd (Http.ReadAll r) = None
  /\ (Json.parse (fst (Http.ReadAll r)) = Some Json.Null
      \/ exists ms, Json.parse (fst (Http.ReadAll r)) = Some (Json.Object ms)
                    /\ loc_accepts ms = true).

(** The value of a decimal number, digit by digit from the left. *)
Fixpoint uint_val (acc : Z) (d : Decimal.uint) : Z :=
  match d with
  | Decimal.Nil => acc
  | Decimal.D0 l => uint_val (10 * acc + 0) l
  | Decimal.D1 l => uint_val (10 * acc + 1) l
  | Decimal.D2 l => uint_val (10 * acc + 2) l
  | Decimal.D3 l => uint_val (10 * acc + 3) l
  | Decimal.D4 l => uint_val (10 * acc + 4) l
  | Decimal.D5 l => uint_val (10 * acc + 5) l
  | Decimal.D6 l => uint_val (10 * acc + 6) l
  | Decimal.D7 l => uint_val (10 * acc + 7) l
  | Decimal.D8 l => uint_val (10 * acc + 8) l
  | Decimal.D9 l => uint_val (10 * acc + 9) l
  end.

(** An integer in the range of Go's [int]. *)
Definition is_int64 (z : Z) : bool :=
  (Strconv.minInt64 <=? z)%Z && (z <=? Strconv.maxInt64)%Z.

(** A string of ASCII bytes. *)
Fixpoint is_ascii (s : string) : bool :=
  match s with
  | EmptyString => true
  | String c s' => (byte_of c <? 128) && is_ascii s'
  end.

(** What follows a value inside an array or an object, or the end of the
    text. *)
Definition delim (rest : string) : bool :=
  match rest with
  | EmptyString => true
  | String c _ => Ascii.eqb c "," || Ascii.eqb c "}" || Ascii.eqb c "]"
  end.

(** The two loops of [Json.parse_value], over the members of an object
    and over the elements of an array, with the parser of the values as a
    parameter. *)
Definition members_loop (pv : string -> option (Json.value * string)) :=
  fix members (n : nat) (s : string) (acc : list (string * Json.value))
    {struct n} : option (Json.value * string) :=
    match n with
    | O => None
    | S n' =>
        match Json.parse_string (Json.skip_ws s) with
        | None => None
        | Some (k, s) =>
            let s := Json.skip_ws s in
            if Json.starts ":" s then
              match pv (drop 1 s) with
              | None => None
              | Some (v, s) =>
                  let s := Json.skip_ws s in
                  if Json.starts "," s then
                    members n' (drop 1 s) ((k, v) :: acc)
                  else if Json.starts "}" s then
                    Some (Json.Object (rev ((k, v) :: acc)), drop 1 s)
                  else None
              end
            else None
        end
    end.

Definition elements_loop (pv : string -> option (Json.value * string)) :=
  fix elements (n : nat) (s : string) (acc : list Json.value)
    {struct n} : option (Json.value * string) :=
    match n with
    | O => None
    | S n' =>
        match pv s with
        | None => None
        | Some (v, s) =>
            let s := Json.skip_ws s in
            if Json.starts "," s then elements n' (drop 1 s) (v :: acc)
            else if Json.starts "]" s then
              Some (Json.Array (rev (v :: acc)), drop 1 s)
            else None
        end
    end.

(** The value, the key and the text of a member as it is written. *)
Definition written_member : Type := string * Json.value * string.

Definition written (m : written_member) : string :=
  Json.member_text (fst (fst m)) (snd m).

Definition members_text (ms : list written_member) : string :=
  String.concat "," (map written ms).

Definition members_of (ms : list written_member) : list (string * Json.value) :=
  map fst ms.

(** The parser of the values reads the member's text back as its value,
    whatever follows the value in an array or an object. *)
Definition reads_back (pv : string -> option (Json.value * string))
  (m : written_member) : Prop :=
  is_ascii (fst (fst m)) = true
  /\ forall rest, delim rest = true -> pv (snd m ++ rest) = Some (snd (fst m), rest).

Definition number_of (z : Z) : Json.value := Json.Number (Strconv.FormatInt z).

(** The members of the two structs of the final revision as
    [json.Marshal] writes them, with the values they stand for. *)
Definition wind_members (w : Final.windData) : list written_member :=
  [("Direction", Json.Str (Final.Direction w), Json.quote (Final.Direction w));
   ("Speed", number_of (Final.Speed w), Strconv.FormatInt (Final.Speed w))].

Definition forecast_value (s : Json.slice Z) : Json.value :=
  match s with
  | None => Json.Null
  | Some l => Json.Array (map number_of l)
  end.

Definition weather_members (w : Final.weatherData) : list written_member :=
  [("LocationName", Json.Str (Final.LocationName w), Json.quote (Final.LocationName w));
   ("Weather", Json.Str (Final.Weather w), Json.quote (Final.Weather w));
   ("Temperature", number_of (Final.Temperature w),
    Strconv.FormatInt (Final.Temperature w));
   ("Celsius", Json.Bool (Final.Celsius w), if Final.Celsius w then "true" else "false");
   ("TempForecast", forecast_value (Final.TempForecast w),
    forecast_text (Final.TempForecast w));
   ("Wind", Json.Object (members_of (wind_members (Final.Wind w))),
    wind_text (Final.Wind w))].

(** A weather value whose strings are ASCII and whose integers are in the
    range of Go's [int]. *)
Definition wire_safe (w : Final.weatherData) : bool :=
  is_ascii (Final.LocationName w) && is_ascii (Final.Weather w)
  && is_int64 (Final.Temperature w)
  && match Final.TempForecast w with
     | None => true
     | Some l => forallb is_int64 l
     end
  && is_ascii (Final.Direction (Final.Wind w)) && is_int64 (Final.Speed (Final.Wind w)).

(** A weather value with a nil forecast, a negative temperature and
    strings that the encoder escapes. *)
Definition stormy : Final.weatherData := {|
  Final.LocationName := q "<'Baker' & Co>";
  Final.Weather := "storm" ++ nl ++ "hail";
  Final.Temperature := (-3)%Z;
  Final.Celsius := false;
  Final.TempForecast := None;
  Final.Wind := {| Final.Direction := "NW"; Final.Speed := 0%Z |}
|}.

(** * Properties *)

(** ** The library model on known inputs *)

Example Lookup_conventional_tag :
  Reflect.Lookup Strconv.Unquote (q "xml:'a' json:'temp_forecast,omitempty'") "json"
  = Some "temp_forecast,omitempty".
Proof. reflexivity. Qed.

Example Lookup_program_tag :
  Reflect.Lookup Strconv.Unquote "json: temp_forecast" "json" = None.
Proof. reflexivity. Qed.

Example ParseInt_negative : Strconv.ParseInt "-31" = Some (-31)%Z.
Proof. reflexivity. Qed.

Example ParseInt_fraction : Strconv.ParseInt "3.0" = None.
Proof. reflexivity. Qed.

Example ParseInt_overflow : Strconv.ParseInt "9223372036854775808" = None.
Proof. vm_compute. reflexivity. Qed.

Example FormatInt_negative : Strconv.FormatInt (-31) = "-31".
Proof. reflexivity. Qed.

Example ParseFloat32_latitude :
  Strconv.ParseFloat32 "35.14326" = Some (S754_finite false 9212595 (-18)).
Proof. vm_compute. reflexivity. Qed.

Example ParseFloat32_largest :
  Strconv.ParseFloat32 "3.4028235e38" = Some (S754_finite false 16777215 104).
Proof. vm_compute. reflexivity. Qed.

Example ParseFloat32_smallest :
  Strconv.ParseFloat32 "1e-45" = Some (S754_finite false 1 (-149)).
Proof. vm_compute. reflexivity. Qed.

Example ParseFloat32_out_of_range : Strconv.ParseFloat32 "1e39" = None.
Proof. vm_compute. reflexivity. Qed.

Example encodeFloat32_largest :
  Json.encodeFloat32 (S754_finite false 16777215 104) = inl "3.4028235e+38".
Proof. vm_compute. reflexivity. Qed.

Example encodeFloat32_smallest :
  Json.encodeFloat32 (S754_finite false 1 (-149)) = inl "1e-45".
Proof. vm_compute. reflexivity. Qed.

Example encodeFloat32_1e20 :
  Json.encodeFloat32 (Strconv.round32_dec false 1 20) = inl "100000000000000000000".
Proof. vm_compute. reflexivity. Qed.

Example encodeFloat32_half : Json.encodeFloat32 (Strconv.round32_dec false 5 (-1)) = inl "0.5".
Proof. vm_compute. reflexivity. Qed.

Example parse_nested :
  Json.parse (q " [1, {'a' : [true,null , false]}, 'x' ] ") =
  Some (Json.Array [Json.Number "1";
                    Json.Object [("a", Json.Array [Json.Bool true; Json.Null;
                                                   Json.Bool false])];
                    Json.Str "x"]).
Proof. vm_compute. reflexivity. Qed.

Example parse_trailing_comma : Json.parse "[1,]" = None.
Proof. vm_compute. reflexivity. Qed.

Example parse_text_after_value : Json.parse "{} x" = None.
Proof. vm_compute. reflexivity. Qed.

Example parse_leading_zero : Json.parse "012" = None.
Proof. vm_compute. reflexivity. Qed.

Example parse_string_escapes :
  Json.parse_string (String dquote ("a" ++ String bslash "nb" ++ Utf8.byte 195
                                    ++ Utf8.byte 169 ++ String bslash "/")
                     ++ String dquote " rest") =
  Some ("a" ++ Utf8.byte 10 ++ "b" ++ Utf8.byte 195 ++ Utf8.byte 169 ++ "/", " rest").
Proof. reflexivity. Qed.

Example parse_string_surrogate_pair :
  Json.parse_string (String dquote (String bslash "ud83d" ++ String bslash "ude00")
                     ++ String dquote EmptyString) =
  Some (Utf8.byte 240 ++ Utf8.byte 159 ++ Utf8.byte 152 ++ Utf8.byte 128, EmptyString).
Proof. reflexivity. Qed.

Example parse_string_lone_surrogate :
  Json.parse_string (String dquote (String bslash "ud83dx") ++ String dquote EmptyString)
  = Some (Utf8.replacement ++ "x", EmptyString).
Proof. reflexivity. Qed.

Example quote_escapes :
  Json.quote ("a<b" ++ Utf8.byte 10 ++ Utf8.byte 255 ++ Utf8.byte 1)
  = String dquote ("a" ++ String bslash "u003cb" ++ String bslash "n"
                   ++ String bslash "ufffd" ++ String bslash "u0001")
    ++ String dquote EmptyString.
Proof. vm_compute. reflexivity. Qed.

Example foldName_long_s :
  Json.foldName ("Cel" ++ Utf8.byte 197 ++ Utf8.byte 191 ++ "ius") = "CELSIUS".
Proof. reflexivity. Qed.

Lemma append_nil_r (a : string) : (a ++ EmptyString = a)%string.
Proof. induction a as [| x a IH]; simpl; [reflexivity | now rewrite IH]. Qed.

(** ** The field tables, as the library reads them *)

(** No tag of the program is in the form the library reads: after the
    colon comes a space, where the double quote of the value has to be. *)
Lemma program_tags_unreadable (tag : string) :
  In tag ["json: locationName"; "json: weather"; "json: temperature";
          "json: celsius"; "json: temp_forecast"; "json: wind";
          "json: direction"; "json: speed"; "json: lat"; "json: lon"] ->
  forall Unquote, Reflect.Lookup Unquote tag "json" = None.
Proof.
  intros H Unquote. simpl in H.
  repeat (destruct H as [<- | H]; [reflexivity |]). contradiction.
Qed.

Lemma typeFields_draft_weatherData :
  Json.typeFields Draft.weatherData_fields = [].
Proof. reflexivity. Qed.

Lemma typeFields_final_weatherData :
  Json.typeFields Final.weatherData_fields
  = combine ["LocationName"; "Weather"; "Temperature"; "Celsius";
             "TempForecast"; "Wind"] Final.weatherData_fields.
Proof. reflexivity. Qed.

Lemma typeFields_final_windData :
  Json.typeFields Final.windData_fields
  = combine ["Direction"; "Speed"] Final.windData_fields.
Proof. reflexivity. Qed.

Lemma typeFields_final_loc :
  Json.typeFields Final.loc_fields = combine ["Lat"; "Lon"] Final.loc_fields.
Proof. reflexivity. Qed.

Lemma typeFields_cli_loc :
  Json.typeFields Cli.loc_fields = combine ["Lat"; "Lon"] Cli.loc_fields.
Proof. reflexivity. Qed.

(** ** The draft's codec *)

(** The draft's [encode] writes the empty object for every value. *)
Lemma draft_encode_empty (w : Draft.weatherData) : Draft.encode w = inl "{}".
Proof. reflexivity. Qed.

(** Decoding an object into the draft's struct changes no field. *)
Lemma draft_decode_members (ms : list (string * Json.value)) (w : Draft.weatherData) :
  Json.decode_members Draft.weatherData_fields ms w = (w, None).
Proof.
  induction ms as [| [k v] ms IH]; [reflexivity |].
  cbn [Json.decode_members]. unfold Json.find_field.
  rewrite typeFields_draft_weatherData. exact IH.
Qed.

(** The draft's [decode] never fills a field. *)
Lemma draft_decode_zero (data : string) : fst (Draft.decode data) = Json.zero.
Proof.
  unfold Draft.decode, Json.Unmarshal.
  destruct (Json.parse data) as [j |]; [| reflexivity].
  destruct j; try reflexivity.
  simpl. rewrite draft_decode_members. reflexivity.
Qed.

(** C1, as the code behaves.  The round trip of [encode] and [decode] fails in the
    draft: the sample value is encoded as the empty object, which decodes
    to the zero value, a different value. *)
Theorem C1_draft_round_trip_fails :
  Draft.encode draft_sample = inl "{}"
  /\ Draft.decode "{}" = (Json.zero, None)
  /\ Draft.locationName (fst (Draft.decode "{}")) <> Draft.locationName draft_sample.
Proof.
  split; [reflexivity |]. split; [vm_compute; reflexivity |].
  vm_compute. discriminate.
Qed.

(** In the final revision the fields are exported and the sample values
    of the program make the round trip (see [unmarshal_weather_text] and
    [C3_location_fidelity]).  The library still does not give back every
    value: a string that is not UTF-8 comes back with U+FFFD in the place
    of the offending byte, and a float that is not a number is refused by
    [json.Marshal]. *)
Lemma final_round_trip_limits :
  let w := {| Final.Direction := Utf8.byte 255; Final.Speed := 20 |} in
  (exists text, Json.Marshal w = inl text
                /\ Json.Unmarshal text (Json.zero : Final.windData)
                   = ({| Final.Direction := Utf8.replacement; Final.Speed := 20 |}, None))
  /\ Json.Marshal {| Final.Lat := S754_nan; Final.Lon := S754_zero false |}
     = inr (Json.UnsupportedValueError "NaN").
Proof.
  split; [| reflexivity].
  eexists. split; [vm_compute; reflexivity | vm_compute; reflexivity].
Qed.

(** ** The wire form of the final revision *)

Lemma encode_elems_int (l : list Z) :
  Json.encode_elems l = inl (map Strconv.FormatInt l).
Proof.
  induction l as [| x l IH]; [reflexivity |].
  cbn [Json.encode_elems Json.encodeValue Json.int_codec]. rewrite IH. reflexivity.
Qed.

Lemma encode_forecast (s : Json.slice Z) :
  Json.encodeValue s = inl (forecast_text s).
Proof.
  destruct s as [l |]; [| reflexivity].
  cbn [Json.encodeValue Json.slice_codec forecast_text].
  rewrite encode_elems_int. reflexivity.
Qed.

Lemma encode_wind (w : Final.windData) :
  Json.encodeValue w = inl (wind_text w).
Proof.
  unfold Json.encodeValue at 1, Final.windData_codec, Json.struct_codec.
  rewrite typeFields_final_windData.
  reflexivity.
Qed.

(** C2, as the code behaves.  What [json.Marshal] writes for a [weatherData] of the
    final revision: one object whose keys are the Go field names
    LocationName, Weather, Temperature, Celsius, TempForecast and Wind, the
    wind as a nested object with the keys Direction and Speed, the forecast
    as an array in the order of its elements.  The names of the tags
    (locationName, ..., temp_forecast, ...) are not on the wire. *)
Theorem C2_marshal_weatherData (w : Final.weatherData) :
  Json.Marshal w =
  inl (Json.object_text
         [Json.member_text "LocationName" (Json.quote (Final.LocationName w));
          Json.member_text "Weather" (Json.quote (Final.Weather w));
          Json.member_text "Temperature" (Strconv.FormatInt (Final.Temperature w));
          Json.member_text "Celsius" (if Final.Celsius w then "true" else "false");
          Json.member_text "TempForecast" (forecast_text (Final.TempForecast w));
          Json.member_text "Wind" (wind_text (Final.Wind w))]).
Proof.
  unfold Json.Marshal.
  unfold Json.encodeValue at 1, Final.weatherData_codec, Json.struct_codec.
  rewrite typeFields_final_weatherData.
  unfold Final.weatherData_fields.
  cbn [combine Json.encode_fields Json.get Json.fcodec].
  rewrite encode_wind, encode_forecast.
  reflexivity.
Qed.

(** ** The location on the wire *)

(** C3.  In the final and in the CLI revision the location with latitude
    35.14326 and longitude -116.104 is encoded as an object with two keys
    that carry two different numbers, and the object with the key lat at
    35.14326 and the key lon at -116.104 decodes, without an error, to the
    location whose longitude is the float32 of -116.104 and not that of
    35.14326. *)
Theorem C3_location_fidelity :
  (Json.Marshal Final.client_loc = inl (q "{'Lat':35.14326,'Lon':-116.104}")
   /\ Json.Marshal Cli.client_loc = inl (q "{'Lat':35.14326,'Lon':-116.104}")
   /\ Json.parse (q "{'Lat':35.14326,'Lon':-116.104}")
      = Some (Json.Object [("Lat", Json.Number "35.14326");
                           ("Lon", Json.Number "-116.104")]))
  /\ (Json.Unmarshal (q "{'lat': 35.14326, 'lon': -116.104}") (Json.zero : Final.loc)
      = ({| Final.Lat := Strconv.round32_dec false 3514326 (-5);
            Final.Lon := Strconv.round32_dec true 116104 (-3) |}, None)
      /\ Json.Unmarshal (q "{'lat': 35.14326, 'lon': -116.104}") (Json.zero : Cli.loc)
         = ({| Cli.Lat := Strconv.round32_dec false 3514326 (-5);
               Cli.Lon := Strconv.round32_dec true 116104 (-3) |}, None))
  /\ Strconv.round32_dec true 116104 (-3) = S754_finite true 15217983 (-17)
  /\ Strconv.round32_dec true 116104 (-3) <> Strconv.round32_dec false 3514326 (-5).
Proof.
  repeat split; try (vm_compute; reflexivity).
  vm_compute. discriminate.
Qed.

(** ** The handler *)

Lemma marshal_weather : Json.Marshal Final.weather = inl weather_text.
Proof. vm_compute. reflexivity. Qed.

Lemma unmarshal_weather_text :
  Json.Unmarshal weather_text (Json.zero : Final.weatherData) = (Final.weather, None).
Proof. vm_compute. reflexivity. Qed.

Lemma reply_weather (rt : Http.runtime) :
  Final.reply rt Http.newResponseWriter (Json.Marshal Final.weather)
  = weather_response.
Proof. rewrite marshal_weather. reflexivity. Qed.

(** A request whose body is read and decoded without an error is answered
    with the fixed response, after the location has been logged. *)
Lemma handler_returns (rt : Http.runtime) (r : Http.Request) (body : string) :
  Http.ReadAll r = (body, None) ->
  snd (Json.Unmarshal body (Json.zero : Final.loc)) = None ->
  Final.weatherHandler rt Http.newResponseWriter r
  = ([Http.LogPrintf ("Received: %v" ++ nl)
        (Final.Lat (fst (Json.Unmarshal body (Json.zero : Final.loc))),
         Final.Lon (fst (Json.Unmarshal body (Json.zero : Final.loc))))],
     Http.Returns weather_response).
Proof.
  intros Hread Hdec. unfold Final.weatherHandler. rewrite Hread.
  destruct (Json.Unmarshal body Json.zero) as [l e]. simpl in Hdec. subst e.
  cbn [Http.bind Http.ret Http.emit fst snd app].
  rewrite reply_weather. reflexivity.
Qed.

(** C4.  For every request whose body is read and decodes as a location
    without an error, the handler returns a response that does not depend
    on the request: status 200, the Content-Type application/json, and a
    body that decodes to the fixed weather report. *)
Theorem C4_handler_response (rt : Http.runtime) (r : Http.Request) (body : string)
  (Hread : Http.ReadAll r = (body, None))
  (Hdec : snd (Json.Unmarshal body (Json.zero : Final.loc)) = None) :
  snd (Final.weatherHandler rt Http.newResponseWriter r) = Http.Returns weather_response
  /\ Http.Status weather_response = 200
  /\ Http.header_get "Content-Type" (Http.SentHeader weather_response)
     = Some "application/json"
  /\ Json.Unmarshal (Http.Written weather_response) (Json.zero : Final.weatherData)
     = ({| Final.LocationName := "Zzyzx"; Final.Weather := "cloudy";
           Final.Temperature := 31; Final.Celsius := true;
           Final.TempForecast := Some [30; 32; 29]%Z;
           Final.Wind := {| Final.Direction := "S"; Final.Speed := 20 |} |}, None).
Proof.
  rewrite (handler_returns rt r body Hread Hdec).
  split; [reflexivity |]. split; [reflexivity |]. split; [reflexivity |].
  exact unmarshal_weather_text.
Qed.

Lemma C4_witness :
  snd (Final.weatherHandler demo_runtime Http.newResponseWriter post_location)
  = Http.Returns weather_response.
Proof.
  apply (C4_handler_response demo_runtime post_location
           (q "{'lat': 35.14326, 'lon': -116.104}")).
  - reflexivity.
  - vm_compute. reflexivity.
Defined.

(** ** Decoding an object into a struct *)

Section DecodeMembers.
Context {S : Type}.
Variable fs : list (Json.field S).

Lemma first_error_some (a b : option Json.error) :
  a <> None \/ b <> None -> Json.first_error a b <> None.
Proof. destruct a, b; simpl; intros [H | H]; congruence. Qed.

(** An error in one member is reported, wherever the member stands. *)
Lemma decode_members_error (ms : list (string * Json.value)) (k : string)
  (j : Json.value) (f : Json.field S) :
  In (k, j) ms ->
  Json.find_field fs k = Some f ->
  Json.rejects (Json.fcodec f) j ->
  forall s, snd (Json.decode_members fs ms s) <> None.
Proof.
  intros Hin Hf Hrej.
  induction ms as [| [k' v'] ms IH]; [contradiction |].
  intros s. cbn [Json.decode_members].
  destruct Hin as [Heq | Hin].
  - inversion Heq; subst k' v'. rewrite Hf.
    pose proof (Hrej (Json.get f s)) as He.
    destruct (Json.decodeValue j (Json.get f s)) as [x e1].
    destruct (Json.decode_members fs ms (Json.set f x s)) as [s' e2].
    cbn [snd] in *. apply first_error_some. now left.
  - destruct (Json.find_field fs k') as [g |]; [| now apply IH].
    destruct (Json.decodeValue v' (Json.get g s)) as [x e1].
    specialize (IH Hin (Json.set g x s)).
    destruct (Json.decode_members fs ms (Json.set g x s)) as [s' e2].
    cbn [snd] in *. apply first_error_some. now right.
Qed.

(** A member whose key goes to no field changes nothing. *)
Lemma decode_members_unknown (ms1 ms2 : list (string * Json.value)) (k : string)
  (v : Json.value) :
  Json.find_field fs k = None ->
  forall s, Json.decode_members fs (ms1 ++ (k, v) :: ms2) s
            = Json.decode_members fs (ms1 ++ ms2) s.
Proof.
  intros Hk. induction ms1 as [| [k' v'] ms1 IH]; intros s.
  - cbn [app Json.decode_members]. now rewrite Hk.
  - cbn [app Json.decode_members].
    destruct (Json.find_field fs k') as [g |]; [| now apply IH].
    destruct (Json.decodeValue v' (Json.get g s)) as [x e1].
    now rewrite IH.
Qed.

(** What no member writes stays as it was. *)
Lemma decode_members_preserves {A : Type} (p : S -> A)
  (ms : list (string * Json.value)) :
  (forall k v f, In (k, v) ms -> Json.find_field fs k = Some f ->
                 forall x s, p (Json.set f x s) = p s) ->
  forall s, p (fst (Json.decode_members fs ms s)) = p s.
Proof.
  induction ms as [| [k v] ms IH]; intros H s; [reflexivity |].
  cbn [Json.decode_members].
  assert (Hms : forall k v f, In (k, v) ms -> Json.find_field fs k = Some f ->
                forall x s, p (Json.set f x s) = p s)
    by (intros k0 v0 f0 Hin; apply (H k0 v0 f0); now right).
  destruct (Json.find_field fs k) as [g |] eqn:Hg; [| now apply IH].
  destruct (Json.decodeValue v (Json.get g s)) as [x e1].
  specialize (IH Hms (Json.set g x s)).
  destruct (Json.decode_members fs ms (Json.set g x s)) as [s' e2].
  cbn [fst] in *. rewrite IH. apply (H k v g); [now left | exact Hg].
Qed.

Lemma find_fst_some {B : Type} (p : string * B -> bool) (l : list (string * B))
  (e : string * B) :
  find p l = Some e -> In e l /\ p e = true.
Proof. apply find_some. Qed.

Lemma find_none_all {B : Type} (p : string * B -> bool) (l : list (string * B)) :
  find p l = None <-> (forall e, In e l -> p e = false).
Proof.
  split; [apply find_none |].
  induction l as [| a l IH]; intros H; [reflexivity |].
  cbn [find]. rewrite (H a (or_introl eq_refl)).
  apply IH. intros e He. apply H. now right.
Qed.

Lemma goes_to_refl (n : string) : Json.goes_to n n = true.
Proof. apply String.eqb_refl. Qed.

(** A key goes to a field exactly when it is, up to case, the JSON name of
    a field. *)
Lemma find_field_none (k : string) :
  Json.find_field fs k = None
  <-> (forall e, In e (Json.typeFields fs) -> Json.goes_to (fst e) k = false).
Proof.
  unfold Json.find_field. split.
  - destruct (find (fun e => String.eqb (fst e) k) (Json.typeFields fs))
      as [e |] eqn:H1; [discriminate |].
    destruct (find (fun e => String.eqb (Json.foldName (fst e)) (Json.foldName k))
                   (Json.typeFields fs)) as [e |] eqn:H2; [discriminate |].
    intros _ e He. exact (proj1 (find_none_all _ _) H2 e He).
  - intros H.
    assert (H2 : find (fun e => String.eqb (Json.foldName (fst e)) (Json.foldName k))
                      (Json.typeFields fs) = None)
      by (apply find_none_all; exact H).
    rewrite H2.
    destruct (find (fun e => String.eqb (fst e) k) (Json.typeFields fs))
      as [e |] eqn:H1; [| reflexivity].
    apply find_some in H1. destruct H1 as [He Hk].
    apply String.eqb_eq in Hk. specialize (H e He).
    rewrite Hk in H. rewrite goes_to_refl in H. discriminate.
Qed.

Lemma find_field_some (k : string) (f : Json.field S) :
  Json.find_field fs k = Some f ->
  exists n, In (n, f) (Json.typeFields fs) /\ Json.goes_to n k = true.
Proof.
  unfold Json.find_field.
  destruct (find (fun e => String.eqb (fst e) k) (Json.typeFields fs))
    as [[n g] |] eqn:H1.
  - intros H; inversion H; subst g. apply find_some in H1. destruct H1 as [He Hk].
    cbn [fst] in Hk. apply String.eqb_eq in Hk. subst k.
    exists n. split; [exact He | apply goes_to_refl].
  - destruct (find (fun e => String.eqb (Json.foldName (fst e)) (Json.foldName k))
                   (Json.typeFields fs)) as [[n g] |] eqn:H2; [| discriminate].
    intros H; inversion H; subst g. apply find_some in H2. destruct H2 as [He Hk].
    exists n. split; [exact He | exact Hk].
Qed.

End DecodeMembers.

Lemma absent_in (name : string) (ms : list (string * Json.value)) (k : string)
  (v : Json.value) :
  Json.absent name ms = true -> In (k, v) ms -> Json.goes_to name k = false.
Proof.
  unfold Json.absent. rewrite forallb_forall. intros H Hin.
  specialize (H (k, v) Hin). cbn [fst] in H.
  now destruct (Json.goes_to name k).
Qed.

(** For a field table [fs] with the computed table [Hfs], a name [name]
    whose field the key [k] does not go to, and a projection of another
    field: writing the field the key goes to keeps the projection. *)
Ltac other_field Hfs Hgo :=
  let n := fresh "n" in
  let Hn := fresh "Hn" in
  let Hk := fresh "Hk" in
  match goal with
  | Hf : Json.find_field _ _ = Some _ |- _ =>
      apply find_field_some in Hf; destruct Hf as [n [Hn Hk]];
      rewrite Hfs in Hn; cbn [combine In] in Hn;
      repeat (destruct Hn as [Hn | Hn];
              [inversion Hn; subst; clear Hn;
               first [reflexivity | rewrite Hgo in Hk; discriminate] |]);
      contradiction
  end.

(** ** Missing and unknown keys *)

Section MissingKeys.
Variable ms : list (string * Json.value).
Variable w0 : Final.weatherData.

Let w := fst (Json.decode_members Final.weatherData_fields ms w0).

Lemma absent_LocationName :
  Json.absent "LocationName" ms = true -> Final.LocationName w = Final.LocationName w0.
Proof.
  intros Ha. apply decode_members_preserves. intros k v f Hin Hf x s.
  pose proof (absent_in _ _ _ _ Ha Hin) as Hgo.
  other_field typeFields_final_weatherData Hgo.
Qed.

Lemma absent_Weather :
  Json.absent "Weather" ms = true -> Final.Weather w = Final.Weather w0.
Proof.
  intros Ha. apply decode_members_preserves. intros k v f Hin Hf x s.
  pose proof (absent_in _ _ _ _ Ha Hin) as Hgo.
  other_field typeFields_final_weatherData Hgo.
Qed.

Lemma absent_Temperature :
  Json.absent "Temperature" ms = true -> Final.Temperature w = Final.Temperature w0.
Proof.
  intros Ha. apply decode_members_preserves. intros k v f Hin Hf x s.
  pose proof (absent_in _ _ _ _ Ha Hin) as Hgo.
  other_field typeFields_final_weatherData Hgo.
Qed.

Lemma absent_Celsius :
  Json.absent "Celsius" ms = true -> Final.Celsius w = Final.Celsius w0.
Proof.
  intros Ha. apply decode_members_preserves. intros k v f Hin Hf x s.
  pose proof (absent_in _ _ _ _ Ha Hin) as Hgo.
  other_field typeFields_final_weatherData Hgo.
Qed.

Lemma absent_TempForecast :
  Json.absent "TempForecast" ms = true -> Final.TempForecast w = Final.TempForecast w0.
Proof.
  intros Ha. apply decode_members_preserves. intros k v f Hin Hf x s.
  pose proof (absent_in _ _ _ _ Ha Hin) as Hgo.
  other_field typeFields_final_weatherData Hgo.
Qed.

Lemma absent_Wind :
  Json.absent "Wind" ms = true -> Final.Wind w = Final.Wind w0.
Proof.
  intros Ha. apply decode_members_preserves. intros k v f Hin Hf x s.
  pose proof (absent_in _ _ _ _ Ha Hin) as Hgo.
  other_field typeFields_final_weatherData Hgo.
Qed.

End MissingKeys.

(** A key that is none of the six names, up to case, goes to no field. *)
Lemma weatherData_unknown_key (k : string) :
  forallb (fun n => negb (Json.goes_to n k)) weatherData_names = true ->
  Json.find_field Final.weatherData_fields k = None.
Proof.
  intros H. apply find_field_none. intros e He.
  rewrite typeFields_final_weatherData in He.
  unfold weatherData_names in H. cbn [forallb] in H.
  repeat (apply andb_prop in H; destruct H as [? H]).
  cbn [combine In] in He.
  repeat (destruct He as [He | He];
          [subst e; cbn [fst];
           match goal with
           | Hn : negb (Json.goes_to ?n k) = true |- Json.goes_to ?n k = false =>
               now destruct (Json.goes_to n k)
           end |]).
  contradiction.
Qed.

(** C6.  Decoding an object into a [weatherData]: every field that no key
    of the object goes to has its zero value (the empty string, 0, false,
    the nil slice, the zero wind), and a member whose key goes to no field
    is ignored.  The object with the only key weather at sunny decodes
    without an error, by [json.Unmarshal] in the final revision and by the
    draft's [decode]. *)
Theorem C6_missing_and_unknown_keys (data : string)
  (ms : list (string * Json.value))
  (Hparse : Json.parse data = Some (Json.Object ms)) :
  let w := fst (Json.Unmarshal data (Json.zero : Final.weatherData)) in
  ((Json.absent "LocationName" ms = true -> Final.LocationName w = EmptyString)
   /\ (Json.absent "Weather" ms = true -> Final.Weather w = EmptyString)
   /\ (Json.absent "Temperature" ms = true -> Final.Temperature w = 0%Z)
   /\ (Json.absent "Celsius" ms = true -> Final.Celsius w = false)
   /\ (Json.absent "TempForecast" ms = true -> Final.TempForecast w = None)
   /\ (Json.absent "Wind" ms = true ->
       Final.Wind w = {| Final.Direction := EmptyString; Final.Speed := 0 |}))
  /\ (forall ms1 k v ms2,
        ms = (ms1 ++ (k, v) :: ms2)%list ->
        forallb (fun n => negb (Json.goes_to n k)) weatherData_names = true ->
        Json.Unmarshal data (Json.zero : Final.weatherData)
        = Json.decodeValue (Json.Object (ms1 ++ ms2)) Json.zero)
  /\ Json.Unmarshal sunny_text (Json.zero : Final.weatherData)
     = ({| Final.LocationName := EmptyString; Final.Weather := "sunny";
           Final.Temperature := 0; Final.Celsius := false;
           Final.TempForecast := None;
           Final.Wind := {| Final.Direction := EmptyString; Final.Speed := 0 |} |},
        None)
  /\ Draft.decode sunny_text = (Json.zero, None).
Proof.
  intros w. subst w. unfold Json.Unmarshal at 1 2 3 4 5 6 7. rewrite Hparse.
  change (Json.decodeValue (Json.Object ms) (Json.zero : Final.weatherData))
    with (Json.decode_members Final.weatherData_fields ms Json.zero).
  split; [| split; [| split]].
  - repeat split; intros Ha.
    + now rewrite absent_LocationName.
    + now rewrite absent_Weather.
    + now rewrite absent_Temperature.
    + now rewrite absent_Celsius.
    + now rewrite absent_TempForecast.
    + now rewrite absent_Wind.
  - intros ms1 k v ms2 Hms Hk. subst ms.
    change (Json.decodeValue (Json.Object (ms1 ++ ms2)) (Json.zero : Final.weatherData))
      with (Json.decode_members Final.weatherData_fields (ms1 ++ ms2) Json.zero).
    apply decode_members_unknown. now apply weatherData_unknown_key.
  - vm_compute. reflexivity.
  - vm_compute. reflexivity.
Qed.

Lemma C6_witness :
  let w := fst (Json.Unmarshal sunny_text (Json.zero : Final.weatherData)) in
  Final.LocationName w = EmptyString
  /\ Final.Temperature w = 0%Z
  /\ Final.Celsius w = false
  /\ Final.TempForecast w = None
  /\ Final.Wind w = {| Final.Direction := EmptyString; Final.Speed := 0 |}.
Proof.
  pose proof (C6_missing_and_unknown_keys sunny_text
                [("weather", Json.Str "sunny")] eq_refl) as H.
  cbv zeta in H. destruct H as [[H1 [_ [H3 [H4 [H5 H6]]]]] _].
  cbv zeta.
  split; [apply H1; reflexivity |].
  split; [apply H3; reflexivity |].
  split; [apply H4; reflexivity |].
  split; [apply H5; reflexivity | apply H6; reflexivity].
Defined.

(** ** Decoding errors *)

(** What the scalar codecs reject: everything but [null] and a value of
    the JSON type of the field; a number must also be in the form and the
    range of the Go type. *)
Lemma string_rejects (j : Json.value) :
  (forall s, j <> Json.Str s) -> j <> Json.Null -> Json.rejects Json.string_codec j.
Proof.
  intros Hs Hn old. destruct j; cbn; try discriminate; [congruence |].
  exfalso. now apply (Hs s).
Qed.

Lemma bool_rejects (j : Json.value) :
  (forall b, j <> Json.Bool b) -> j <> Json.Null -> Json.rejects Json.bool_codec j.
Proof.
  intros Hb Hn old. destruct j; cbn; try discriminate; [congruence |].
  exfalso. now apply (Hb b).
Qed.

Lemma int_rejects (j : Json.value) :
  (forall lit, j = Json.Number lit -> Strconv.ParseInt lit = None) ->
  j <> Json.Null -> Json.rejects Json.int_codec j.
Proof.
  intros Hl Hn old. destruct j; cbn; try discriminate; [congruence |].
  rewrite (Hl lit eq_refl). discriminate.
Qed.

Lemma float32_rejects (j : Json.value) :
  (forall lit, j = Json.Number lit -> Strconv.ParseFloat32 lit = None) ->
  j <> Json.Null -> Json.rejects Json.float32_codec j.
Proof.
  intros Hl Hn old. destruct j; cbn; try discriminate; [congruence |].
  rewrite (Hl lit eq_refl). discriminate.
Qed.

(** A string where a number is expected, and a number that is not an
    integer where an integer is expected. *)
Lemma float32_rejects_string (s : string) :
  Json.rejects Json.float32_codec (Json.Str s).
Proof. apply float32_rejects; [discriminate | discriminate]. Qed.

Lemma int_rejects_fraction : Json.rejects Json.int_codec (Json.Number "31.5").
Proof.
  apply int_rejects; [| discriminate].
  intros lit H; inversion H; subst lit. reflexivity.
Qed.

(** C7.  [json.Unmarshal] into a struct returns an error whenever the text
    is not valid JSON, or is a value other than an object and [null], or
    is an object with a member whose key goes to a field and whose value
    the field's type does not accept; so for the object with the key lat
    at the string not-a-number, decoded as a location. *)
Theorem C7_decoding_fails {S : Type} (zeroS : S) (fs : list (Json.field S))
  (data : string) (s : S)
  (Hbad : Json.parse data = None
          \/ (exists j, Json.parse data = Some j /\ j <> Json.Null
                        /\ forall ms, j <> Json.Object ms)
          \/ (exists ms k j f,
                Json.parse data = Some (Json.Object ms) /\ In (k, j) ms
                /\ Json.find_field fs k = Some f
                /\ Json.rejects (Json.fcodec f) j)) :
  exists e, snd (@Json.Unmarshal S (Json.struct_codec zeroS fs) data s) = Some e.
Proof.
  assert (Hsome : forall o : option Json.error, o <> None -> exists e, o = Some e)
    by (intros [e |] H; [now exists e | congruence]).
  unfold Json.Unmarshal.
  destruct Hbad as [Hp | [[j [Hp [Hn Ho]]] | [ms [k [j [f [Hp [Hin [Hf Hrej]]]]]]]]];
    rewrite Hp.
  - now exists Json.SyntaxError.
  - destruct j; cbn; try (eexists; reflexivity); [congruence |].
    exfalso. now apply (Ho ms).
  - apply Hsome.
    change (snd (Json.decode_members fs ms s) <> None).
    now apply (decode_members_error fs ms k j f).
Qed.

Lemma find_field_lat :
  Json.find_field Final.loc_fields "lat"
  = Some (Json.Field "Lat" "json: lat" Final.Lat
            (fun x l => {| Final.Lat := x; Final.Lon := Final.Lon l |})).
Proof. reflexivity. Qed.

Lemma C7_witness :
  exists e, snd (Json.Unmarshal not_a_number_text (Json.zero : Final.loc)) = Some e.
Proof.
  apply (C7_decoding_fails _ Final.loc_fields not_a_number_text Json.zero).
  right. right.
  exists [("lat", Json.Str "not-a-number")], "lat", (Json.Str "not-a-number").
  eexists. split; [reflexivity |]. split; [now left |].
  split; [exact find_field_lat |]. apply float32_rejects_string.
Defined.

(** The error of this example is a type error on a string, and the handler
    of either revision ends the process on it. *)
Lemma not_a_number_error :
  Json.Unmarshal not_a_number_text (Json.zero : Final.loc)
  = (Json.zero, Some (Json.UnmarshalTypeError "string"))
  /\ Json.Unmarshal not_a_number_text (Json.zero : Cli.loc)
     = (Json.zero, Some (Json.UnmarshalTypeError "string")).
Proof. split; vm_compute; reflexivity. Qed.

(** ** Keys and case *)


Section LocKeys.
Variable ms : list (string * Json.value).
Variable l0 : Final.loc.



End LocKeys.



(** ** Errors and the end of the process *)

Lemma marshal_client_loc : Json.Marshal Final.client_loc = inl client_text.
Proof. vm_compute. reflexivity. Qed.

Lemma client_unfold (rt : Http.runtime) :
  Final.client rt
  = Http.bind (Http.emit (Http.ClientDo "POST" "http://localhost:8080"
                            client_header client_text))
      (fun _ =>
         match Http.RoundTrip rt "POST" "http://localhost:8080"
                 client_header client_text with
         | inr err => Http.Fatal EmptyString err
         | inl resp =>
             Http.bind (Http.emit (Http.Println
                                     ("Response: " ++ " " ++ fst (Http.RespReadAll resp))))
               (fun _ => Http.emit Http.BodyClose)
         end).
Proof.
  unfold Final.client. rewrite marshal_client_loc.
  cbn [Http.bind Http.emit]. fold client_header.
  destruct (Http.RoundTrip rt "POST" "http://localhost:8080" client_header client_text)
    as [resp | err]; [| reflexivity].
  destruct (Http.RespReadAll resp) as [body e]. reflexivity.
Qed.

(** C5 does not hold as stated.  Three errors that do not end the process: an
    encoding error in the handler is answered with status 200 and a body
    that reports it; the error of starting the listener is dropped, the
    server returns and nothing is logged; the error of reading the
    response body is dropped, the client prints what was read and
    returns. *)
Lemma C5_errors_that_are_not_fatal :
  Final.reply failing_runtime Http.newResponseWriter
    (inr (Json.UnsupportedValueError "NaN"))
  = {| Http.Header := [("Content-Type", "application/json")];
       Http.wroteHeader := true;
       Http.Status := 200;
       Http.SentHeader := [("Content-Type", "text/plain; charset=utf-8")];
       Http.Written := "Error: unsupported value" |}
  /\ Final.server failing_runtime
     = ([Http.HandleFunc "/"; Http.ListenAndServe ":8080"], Http.Returns tt)
  /\ Final.client failing_runtime
     = ([Http.ClientDo "POST" "http://localhost:8080" client_header client_text;
         Http.Println "Response:  {"; Http.BodyClose], Http.Returns tt).
Proof.
  split; [reflexivity |]. split; [reflexivity |].
  rewrite client_unfold. reflexivity.
Qed.

Lemma reply_error_written (rt : Http.runtime) (w : Http.ResponseWriter)
  (err : Json.error) :
  Http.Written (Final.reply rt w (inr err))
  = Http.Written w ++ "Error: " ++ Http.ErrorText rt (Http.JsonError err).
Proof.
  unfold Final.reply, Http.Write, Http.HeaderSet.
  destruct (Http.wroteHeader w); cbn [Http.wroteHeader Http.Written];
    now rewrite append_nil_r.
Qed.

(** C5, as it holds.  In the final revision an error of reading the request
    body or of decoding it ends the process: the handler logs the error
    and exits with status 1, and no response is written.  So does a
    failed request in the client.  An encoding error in the handler is
    written into the response; the errors of starting the listener and
    of reading the response body are dropped. *)
Theorem C5_fatal_and_dropped_errors (rt : Http.runtime) (w : Http.ResponseWriter)
  (r : Http.Request) (e : Http.goerror)
  (Herr : snd (Http.ReadAll r) = Some e
          \/ (snd (Http.ReadAll r) = None
              /\ Http.wrap (snd (Json.Unmarshal (fst (Http.ReadAll r))
                                   (Json.zero : Final.loc))) = Some e)) :
  Final.weatherHandler rt w r
  = ([Http.LogFatal (match snd (Http.ReadAll r) with
                     | Some _ => "Error reading the body"
                     | None => "Decoding error: "
                     end) e], Http.Exits 1)
  /\ (forall err,
        Http.RoundTrip rt "POST" "http://localhost:8080" client_header client_text
        = inr err ->
        Final.client rt
        = ([Http.ClientDo "POST" "http://localhost:8080" client_header client_text;
            Http.LogFatal EmptyString err], Http.Exits 1))
  /\ (forall err,
        Http.Written (Final.reply rt w (inr err))
        = Http.Written w ++ "Error: " ++ Http.ErrorText rt (Http.JsonError err))
  /\ (forall err,
        Http.ListenFails rt = Some err ->
        Final.server rt
        = ([Http.HandleFunc "/"; Http.ListenAndServe ":8080"], Http.Returns tt))
  /\ (forall resp body err,
        Http.RoundTrip rt "POST" "http://localhost:8080" client_header client_text
        = inl resp ->
        Http.RespReadAll resp = (body, Some err) ->
        Final.client rt
        = ([Http.ClientDo "POST" "http://localhost:8080" client_header client_text;
            Http.Println ("Response: " ++ " " ++ body); Http.BodyClose],
           Http.Returns tt)).
Proof.
  split; [| split; [| split; [| split]]].
  - unfold Final.weatherHandler.
    destruct (Http.ReadAll r) as [jsn rerr]. cbn [fst snd] in Herr.
    destruct Herr as [Hr | [Hr Hd]]; subst rerr; [reflexivity |].
    destruct (Json.Unmarshal jsn Json.zero) as [location derr].
    cbn [snd] in Hd. destruct derr as [d |]; [| discriminate].
    cbn [Http.wrap] in Hd. inversion Hd; subst e. reflexivity.
  - intros err H. rewrite client_unfold, H. reflexivity.
  - intros err. apply reply_error_written.
  - intros err H. unfold Final.server. rewrite H. reflexivity.
  - intros resp body err H Hb. rewrite client_unfold, H, Hb. reflexivity.
Qed.

Lemma C5_witness :
  Final.weatherHandler demo_runtime Http.newResponseWriter post_not_a_number
  = ([Http.LogFatal "Decoding error: "
        (Http.JsonError (Json.UnmarshalTypeError "string"))], Http.Exits 1).
Proof.
  apply (C5_fatal_and_dropped_errors demo_runtime Http.newResponseWriter
           post_not_a_number
           (Http.JsonError (Json.UnmarshalTypeError "string"))).
  right. split; [reflexivity | vm_compute; reflexivity].
Defined.

(** ** The command line *)

(** C9 does not hold as stated.  The [main] of the final revision does not read
    the command line: with no argument, and with an argument that is
    neither server nor client, it prints no usage message; it starts the
    server in a goroutine, which registers the handler and listens, and
    runs the client to the end. *)
Lemma C9_final_main_ignores_arguments :
  Final.main demo_runtime ["json"]
  = ([Http.Go [Http.HandleFunc "/"; Http.ListenAndServe ":8080"];
      Http.ClientDo "POST" "http://localhost:8080" client_header client_text;
      Http.Println ("Response: " ++ " " ++ weather_text); Http.BodyClose],
     Http.Returns tt)
  /\ Final.main demo_runtime ["json"; "help"] = Final.main demo_runtime ["json"].
Proof.
  split; [| reflexivity].
  unfold Final.main. rewrite client_unfold. reflexivity.
Qed.

Lemma cli_main_usage (rt : Http.runtime) (Args : list string) :
  (List.length Args < 2
   \/ (nth 1 Args EmptyString <> "server" /\ nth 1 Args EmptyString <> "client")) ->
  Cli.main rt Args = ([Http.Println Cli.usage], Http.Exits 1).
Proof.
  intros H. unfold Cli.main.
  destruct (List.length Args <? 2) eqn:Hlen; [reflexivity |].
  apply Nat.ltb_ge in Hlen.
  destruct H as [H | [Hs Hc]]; [lia |].
  apply String.eqb_neq in Hs, Hc. rewrite Hs, Hc. reflexivity.
Qed.

(** C9, as it holds.  In the CLI revision, [main] with no argument, or with a
    first argument other than server and client, prints the usage message
    and exits with status 1, and does nothing else: no handler is
    registered and no listener is started.  With server it is [server()],
    which registers the handler and listens on port 8080; with client it
    is [client()].  The [main] of the final revision is the same for every
    command line. *)
Theorem C9_cli_usage (rt : Http.runtime) (Args : list string)
  (Hbad : List.length Args < 2
          \/ (nth 1 Args EmptyString <> "server"
              /\ nth 1 Args EmptyString <> "client")) :
  Cli.main rt Args = ([Http.Println Cli.usage], Http.Exits 1)
  /\ (forall prog rest, Cli.main rt (prog :: "server" :: rest) = Cli.server rt)
  /\ (forall prog rest, Cli.main rt (prog :: "client" :: rest) = Cli.client rt)
  /\ (exists e, Cli.server rt
                = ([Http.HandleFunc "/"; Http.ListenAndServe ":8080"], e))
  /\ (forall Args', Final.main rt Args' = Final.main rt []).
Proof.
  split; [now apply cli_main_usage |].
  split; [reflexivity |]. split; [reflexivity |].
  split; [| reflexivity].
  unfold Cli.server. destruct (Http.ListenFails rt); eexists; reflexivity.
Qed.

Lemma C9_witness :
  Cli.main demo_runtime ["json"] = ([Http.Println Cli.usage], Http.Exits 1)
  /\ Cli.main demo_runtime ["json"; "help"] = ([Http.Println Cli.usage], Http.Exits 1).
Proof.
  split.
  - apply (C9_cli_usage demo_runtime ["json"]). left. simpl. lia.
  - apply (C9_cli_usage demo_runtime ["json"; "help"]). right.
    split; discriminate.
Defined.

(** ** Method and path *)





(** * Further properties of the code *)

(** ** The draft's [encode] and [decode] *)

(** X1.  The draft's codec carries nothing: [encode] returns the empty
    object for every value and never an error; [decode] returns the zero
    value for every input, and returns an error exactly when the input is
    not the text of an object or of [null]. *)
Theorem draft_codec_carries_nothing (w : Draft.weatherData) (data : string) :
  Draft.encode w = inl "{}"
  /\ fst (Draft.decode data) = Json.zero
  /\ (snd (Draft.decode data) = None
      <-> Json.parse data = Some Json.Null
          \/ exists ms, Json.parse data = Some (Json.Object ms)).
Proof.
  split; [apply draft_encode_empty |]. split; [apply draft_decode_zero |].
  unfold Draft.decode, Json.Unmarshal.
  destruct (Json.parse data) as [j |].
  - destruct j; cbn [Json.decodeValue Draft.weatherData_codec Json.struct_codec
                     Json.mismatch snd].
    + split; [now left | reflexivity].
    + split; [discriminate | intros [H | [ms H]]; discriminate].
    + split; [discriminate | intros [H | [ms H]]; discriminate].
    + split; [discriminate | intros [H | [ms H]]; discriminate].
    + split; [discriminate | intros [H | [ms H]]; discriminate].
    + rewrite draft_decode_members. split; [| reflexivity].
      intros _. right. now exists ms.
  - cbn [snd]. split; [discriminate | intros [H | [ms H]]; discriminate].
Qed.

(** ** The two declarations of [loc] *)

Lemma find_field_final_loc (k : string) :
  Json.find_field Final.loc_fields k
  = if String.eqb "Lat" k then Some final_Lat_field
    else if String.eqb "Lon" k then Some final_Lon_field
    else if Json.goes_to "Lat" k then Some final_Lat_field
    else if Json.goes_to "Lon" k then Some final_Lon_field
    else None.
Proof.
  unfold Json.find_field, Json.goes_to. rewrite typeFields_final_loc.
  unfold Final.loc_fields. cbn [combine find fst snd].
  destruct (String.eqb "Lat" k); [reflexivity |].
  destruct (String.eqb "Lon" k); [reflexivity |].
  destruct (String.eqb (Json.foldName "Lat") (Json.foldName k)); [reflexivity |].
  destruct (String.eqb (Json.foldName "Lon") (Json.foldName k)); reflexivity.
Qed.

Lemma find_field_cli_loc (k : string) :
  Json.find_field Cli.loc_fields k
  = if String.eqb "Lat" k then Some cli_Lat_field
    else if String.eqb "Lon" k then Some cli_Lon_field
    else if Json.goes_to "Lat" k then Some cli_Lat_field
    else if Json.goes_to "Lon" k then Some cli_Lon_field
    else None.
Proof.
  unfold Json.find_field, Json.goes_to. rewrite typeFields_cli_loc.
  unfold Cli.loc_fields. cbn [combine find fst snd].
  destruct (String.eqb "Lat" k); [reflexivity |].
  destruct (String.eqb "Lon" k); [reflexivity |].
  destruct (String.eqb (Json.foldName "Lat") (Json.foldName k)); [reflexivity |].
  destruct (String.eqb (Json.foldName "Lon") (Json.foldName k)); reflexivity.
Qed.

(** One step of the two decoders on a member that goes to the same
    field of both declarations. *)
Ltac loc_step IH Hsame Hother c' f' :=
  unfold cli_Lat_field, cli_Lon_field, final_Lat_field, final_Lon_field;
  cbn [Json.fcodec Json.get Json.set Json.ftype]; rewrite Hsame;
  match goal with
  | |- context [Json.decodeValue ?v ?old] =>
      let x := fresh "x" in
      let e1 := fresh "e" in
      destruct (Json.decodeValue v old) as [x e1];
      first [ specialize (IH (c' x) (f' x) eq_refl Hother)
            | specialize (IH (c' x) (f' x) Hother eq_refl) ];
      cbn beta in IH; unfold same_loc in IH;
      destruct (Json.decode_members Cli.loc_fields _ _) as [? ?];
      destruct (Json.decode_members Final.loc_fields _ _) as [? ?];
      cbn [fst snd] in *;
      let H1 := fresh in
      let H2 := fresh in
      let H3 := fresh in
      destruct IH as [H1 [H2 H3]]; rewrite H3; auto
  end.

(** The two decoders run in step on the same members. *)
Lemma loc_decoders_in_step (ms : list (string * Json.value)) :
  forall (c : Cli.loc) (f : Final.loc),
    Cli.Lat c = Final.Lat f -> Cli.Lon c = Final.Lon f ->
    same_loc (Json.decode_members Cli.loc_fields ms c)
             (Json.decode_members Final.loc_fields ms f).
Proof.
  induction ms as [| [k v] ms IH]; intros c f Hlat Hlon.
  - unfold same_loc. cbn. auto.
  - cbn [Json.decode_members].
    rewrite find_field_cli_loc, find_field_final_loc.
    destruct (String.eqb "Lat" k).
    { unfold same_loc. loc_step IH Hlat Hlon
        (fun x => {| Cli.Lat := x; Cli.Lon := Cli.Lon c |})
        (fun x => {| Final.Lat := x; Final.Lon := Final.Lon f |}). }
    destruct (String.eqb "Lon" k).
    { unfold same_loc. loc_step IH Hlon Hlat
        (fun x => {| Cli.Lat := Cli.Lat c; Cli.Lon := x |})
        (fun x => {| Final.Lat := Final.Lat f; Final.Lon := x |}). }
    destruct (Json.goes_to "Lat" k).
    { unfold same_loc. loc_step IH Hlat Hlon
        (fun x => {| Cli.Lat := x; Cli.Lon := Cli.Lon c |})
        (fun x => {| Final.Lat := x; Final.Lon := Final.Lon f |}). }
    destruct (Json.goes_to "Lon" k).
    { unfold same_loc. loc_step IH Hlon Hlat
        (fun x => {| Cli.Lat := Cli.Lat c; Cli.Lon := x |})
        (fun x => {| Final.Lat := Final.Lat f; Final.Lon := x |}). }
    now apply IH.
Qed.

(** X2.  The location is declared twice, with the tag of [Lon] naming the
    key lat in the CLI revision and the key lon in the final one.  The
    two declarations decode alike: for every request body
    [json.Unmarshal] fills the same latitude and the same longitude and
    returns the same error. *)
Theorem loc_declarations_decode_alike (data : string) :
  Cli.Lat (fst (Json.Unmarshal data (Json.zero : Cli.loc)))
  = Final.Lat (fst (Json.Unmarshal data (Json.zero : Final.loc)))
  /\ Cli.Lon (fst (Json.Unmarshal data (Json.zero : Cli.loc)))
     = Final.Lon (fst (Json.Unmarshal data (Json.zero : Final.loc)))
  /\ snd (Json.Unmarshal data (Json.zero : Cli.loc))
     = snd (Json.Unmarshal data (Json.zero : Final.loc)).
Proof.
  unfold Json.Unmarshal. destruct (Json.parse data) as [j |]; [| cbn; auto].
  destruct j; try (cbn; auto; fail).
  exact (loc_decoders_in_step ms
           {| Cli.Lat := S754_zero false; Cli.Lon := S754_zero false |}
           {| Final.Lat := S754_zero false; Final.Lon := S754_zero false |}
           eq_refl eq_refl).
Qed.

(** ** The two handlers *)

(** X3.  The handler of the CLI revision treats every request as the
    handler of the final revision does: it ends in the same way, with the
    same log, and when it returns it has written the same response; it
    only dumps the encoded weather report besides. *)
Theorem cli_handler_as_final_handler (rt : Http.runtime) (w : Http.ResponseWriter)
  (r : Http.Request) :
  Cli.weatherHandler rt w r
  = match Final.weatherHandler rt w r with
    | (t, Http.Returns w') => ((t ++ [Http.SpewDump weather_text])%list, Http.Returns w')
    | other => other
    end.
Proof.
  unfold Cli.weatherHandler, Final.weatherHandler.
  destruct (Http.ReadAll r) as [jsn [e |]]; [reflexivity |].
  pose proof (loc_declarations_decode_alike jsn) as H.
  destruct (Json.Unmarshal jsn (Json.zero : Cli.loc)) as [c ec].
  destruct (Json.Unmarshal jsn (Json.zero : Final.loc)) as [f ef].
  cbn [fst snd] in H. destruct H as [Hlat [Hlon He]]. subst ec.
  destruct ef as [e |]; [reflexivity |].
  cbn [Http.bind Http.ret Http.emit fst snd app].
  unfold Cli.weather. rewrite marshal_weather, Hlat, Hlon. reflexivity.
Qed.

(** ** The bodies the handler takes *)

Section DecodeMembersOk.
Context {S : Type}.
Variable fs : list (Json.field S).

(** When every member that goes to a field is taken by the field, no
    error is reported. *)
Lemma decode_members_ok (ms : list (string * Json.value)) :
  (forall k j f, In (k, j) ms -> Json.find_field fs k = Some f ->
                 forall old, snd (@Json.decodeValue _ (Json.fcodec f) j old) = None) ->
  forall s, snd (Json.decode_members fs ms s) = None.
Proof.
  induction ms as [| [k v] ms IH]; intros H s; [reflexivity |].
  cbn [Json.decode_members].
  assert (Hms : forall k j f, In (k, j) ms -> Json.find_field fs k = Some f ->
                forall old, snd (@Json.decodeValue _ (Json.fcodec f) j old) = None)
    by (intros k0 j0 f0 Hin; apply (H k0 j0 f0); now right).
  destruct (Json.find_field fs k) as [g |] eqn:Hg; [| now apply IH].
  pose proof (H k v g (or_introl eq_refl) Hg (Json.get g s)) as He.
  destruct (Json.decodeValue v (Json.get g s)) as [x e1].
  specialize (IH Hms (Json.set g x s)).
  destruct (Json.decode_members fs ms (Json.set g x s)) as [s' e2].
  cbn [snd] in *. subst e1 e2. reflexivity.
Qed.

End DecodeMembersOk.

Lemma forallb_false {A : Type} (p : A -> bool) (l : list A) :
  forallb p l = false -> exists x, In x l /\ p x = false.
Proof.
  induction l as [| a l IH]; [discriminate |].
  cbn [forallb]. destruct (p a) eqn:Ha.
  - intros H. destruct (IH H) as [x [Hin Hx]]. exists x. split; [now right | exact Hx].
  - intros _. exists a. split; [now left | exact Ha].
Qed.

Lemma float32_accepts_ok (j : Json.value) :
  float32_accepts j = true ->
  forall old, snd (@Json.decodeValue _ Json.float32_codec j old) = None.
Proof.
  intros H old. destruct j; try discriminate; [reflexivity |].
  cbn in *. now destruct (Strconv.ParseFloat32 lit).
Qed.

Lemma float32_accepts_not (j : Json.value) :
  float32_accepts j = false -> Json.rejects Json.float32_codec j.
Proof.
  intros H. apply float32_rejects.
  - intros lit Hj. subst j. cbn in H. now destruct (Strconv.ParseFloat32 lit).
  - intros Hj. subst j. discriminate.
Qed.

Lemma eqb_goes_to (n k : string) : String.eqb n k = true -> Json.goes_to n k = true.
Proof. intros H. apply String.eqb_eq in H. subst k. apply String.eqb_refl. Qed.

(** A key goes to a field of the location exactly when it is Lat or Lon
    up to case, and the field is one of the two float32 fields. *)
Lemma final_loc_field_cases (k : string) (f : Json.field Final.loc) :
  Json.find_field Final.loc_fields k = Some f ->
  (f = final_Lat_field \/ f = final_Lon_field)
  /\ Json.goes_to "Lat" k || Json.goes_to "Lon" k = true.
Proof.
  rewrite find_field_final_loc.
  destruct (String.eqb "Lat" k) eqn:E1.
  { intros H; inversion H. rewrite (eqb_goes_to _ _ E1). auto. }
  destruct (String.eqb "Lon" k) eqn:E2.
  { intros H; inversion H. rewrite (eqb_goes_to _ _ E2), orb_true_r. auto. }
  destruct (Json.goes_to "Lat" k); [intros H; inversion H; auto |].
  destruct (Json.goes_to "Lon" k); [intros H; inversion H; auto | discriminate].
Qed.

Lemma final_loc_field_found (k : string) :
  Json.goes_to "Lat" k || Json.goes_to "Lon" k = true ->
  exists f, Json.find_field Final.loc_fields k = Some f
            /\ (f = final_Lat_field \/ f = final_Lon_field).
Proof.
  rewrite find_field_final_loc. intros H.
  destruct (String.eqb "Lat" k); [eauto |].
  destruct (String.eqb "Lon" k); [eauto |].
  destruct (Json.goes_to "Lat" k); [eauto |].
  destruct (Json.goes_to "Lon" k); [eauto | discriminate].
Qed.

Lemma loc_members_accepted (ms : list (string * Json.value)) (l : Final.loc) :
  snd (Json.decode_members Final.loc_fields ms l) = None <-> loc_accepts ms = true.
Proof.
  split.
  - intros Hok. destruct (loc_accepts ms) eqn:Hacc; [reflexivity | exfalso].
    apply forallb_false in Hacc. destruct Hacc as [[k j] [Hin Hbad]].
    cbn [fst snd] in Hbad.
    destruct (Json.goes_to "Lat" k || Json.goes_to "Lon" k) eqn:Hk; [| discriminate].
    destruct (final_loc_field_found k Hk) as [f [Hf Hcase]].
    refine (decode_members_error Final.loc_fields ms k j f Hin Hf _ l Hok).
    destruct Hcase; subst f; now apply float32_accepts_not.
  - intros Hacc. apply decode_members_ok. intros k j f Hin Hf old.
    destruct (final_loc_field_cases k f Hf) as [Hcase Hk].
    unfold loc_accepts in Hacc. rewrite forallb_forall in Hacc.
    specialize (Hacc (k, j) Hin). cbn [fst snd] in Hacc. rewrite Hk in Hacc.
    destruct Hcase; subst f; now apply float32_accepts_ok.
Qed.

(** X4.  The bodies the handler takes.  [json.Unmarshal] into a location
    returns no error exactly when the body is the text of [null], or of
    an object in which every member whose key is Lat or Lon up to case
    carries [null] or a number in the range of float32.  Other members,
    whatever they carry, do not matter. *)
Theorem location_body_accepted_iff (data : string) :
  snd (Json.Unmarshal data (Json.zero : Final.loc)) = None
  <-> Json.parse data = Some Json.Null
      \/ exists ms, Json.parse data = Some (Json.Object ms) /\ loc_accepts ms = true.
Proof.
  unfold Json.Unmarshal. destruct (Json.parse data) as [j |].
  - destruct j;
      try (cbn; split; [discriminate | intros [H | [ms [H _]]]; discriminate]).
    + cbn. split; [now left | reflexivity].
    + change (snd (Json.decode_members Final.loc_fields ms Json.zero) = None
              <-> Some (Json.Object ms) = Some Json.Null
                  \/ exists ms0, Some (Json.Object ms) = Some (Json.Object ms0)
                                 /\ loc_accepts ms0 = true).
      rewrite loc_members_accepted. split.
      * intros H. right. now exists ms.
      * intros [H | [ms0 [H Hacc]]]; [discriminate |]. now inversion H; subst.
  - cbn. split; [discriminate | intros [H | [ms [H _]]]; discriminate].
Qed.

(** X5.  What the handler does with a request, whatever it is.  Either the
    request is taken: the handler logs the location and returns, having
    written the fixed response with status 200.  Or it is not: the handler
    logs one fatal line and the process exits with status 1.  The handler
    never answers with another status or another body. *)
Theorem handler_answers_or_exits (rt : Http.runtime) (r : Http.Request) :
  (request_accepted r
   /\ snd (Final.weatherHandler rt Http.newResponseWriter r)
      = Http.Returns weather_response
   /\ exists lat lon,
        fst (Final.weatherHandler rt Http.newResponseWriter r)
        = [Http.LogPrintf ("Received: %v" ++ nl) (lat, lon)])
  \/ (~ request_accepted r
      /\ snd (Final.weatherHandler rt Http.newResponseWriter r) = Http.Exits 1
      /\ exists prefix e,
           fst (Final.weatherHandler rt Http.newResponseWriter r)
           = [Http.LogFatal prefix e]).
Proof.
  unfold request_accepted.
  destruct (Http.ReadAll r) as [data rerr] eqn:Hread. cbn [fst snd].
  destruct rerr as [e |].
  - right. split; [intros [H _]; discriminate |].
    unfold Final.weatherHandler. rewrite Hread. split; [reflexivity | do 2 eexists; reflexivity].
  - destruct (snd (Json.Unmarshal data (Json.zero : Final.loc))) as [e |] eqn:Hdec.
    + right. split.
      * intros [_ H]. apply location_body_accepted_iff in H. congruence.
      * unfold Final.weatherHandler. rewrite Hread.
        destruct (Json.Unmarshal data Json.zero) as [l e']. cbn [snd] in Hdec.
        subst e'. split; [reflexivity | do 2 eexists; reflexivity].
    + left. split; [split; [reflexivity | now apply location_body_accepted_iff] |].
      rewrite (handler_returns rt r data Hread Hdec). split; [reflexivity | do 2 eexists; reflexivity].
Qed.

(** ** The client *)

(** X6.  Whatever response the client receives, with whatever status and
    headers, and whether or not its body is read to the end, the client
    prints what was read of the body and returns: it neither looks at the
    status nor decodes the body. *)
Theorem client_prints_any_response (rt : Http.runtime) (resp : Http.Response)
  (Hdo : Http.RoundTrip rt "POST" "http://localhost:8080" client_header client_text
         = inl resp) :
  Final.client rt
  = ([Http.ClientDo "POST" "http://localhost:8080" client_header client_text;
      Http.Println ("Response: " ++ " " ++ fst (Http.RespReadAll resp));
      Http.BodyClose], Http.Returns tt).
Proof. rewrite client_unfold, Hdo. reflexivity. Qed.

Lemma client_prints_any_response_witness :
  Final.client broken_server_runtime
  = ([Http.ClientDo "POST" "http://localhost:8080" client_header client_text;
      Http.Println "Response:  Internal Server Error";
      Http.BodyClose], Http.Returns tt).
Proof.
  apply (client_prints_any_response broken_server_runtime
           {| Http.StatusCode := 500; Http.RespHeader := [];
              Http.RespReadAll := ("Internal Server Error", None) |}).
  reflexivity.
Defined.

Lemma marshal_cli_client_loc : Json.Marshal Cli.client_loc = inl client_text.
Proof. vm_compute. reflexivity. Qed.

(** X7.  The client of the CLI revision, whose location has the tag of
    the latitude on both fields, sends the request of the final revision,
    byte for byte, and goes on as that client does; it only dumps the
    encoded location first. *)
Theorem cli_client_as_final_client (rt : Http.runtime) :
  Cli.client rt
  = (Http.SpewDump client_text :: fst (Final.client rt), snd (Final.client rt)).
Proof.
  rewrite client_unfold. unfold Cli.client. rewrite marshal_cli_client_loc.
  cbn [Http.bind Http.emit app fst snd]. fold client_header.
  destruct (Http.RoundTrip rt "POST" "http://localhost:8080" client_header client_text)
    as [resp | err]; [| reflexivity].
  destruct (Http.RespReadAll resp) as [body e]. reflexivity.
Qed.




(** ** The two [main] functions *)

Lemma server_trace (rt : Http.runtime) :
  fst (Final.server rt) = [Http.HandleFunc "/"; Http.ListenAndServe ":8080"].
Proof. unfold Final.server. destruct (Http.ListenFails rt); reflexivity. Qed.

Lemma final_client_never_listens (rt : Http.runtime) (addr : string) :
  ~ In (Http.ListenAndServe addr) (fst (Final.client rt)).
Proof.
  rewrite client_unfold.
  destruct (Http.RoundTrip rt "POST" "http://localhost:8080" client_header client_text)
    as [resp | err]; cbn; intros H;
    repeat (destruct H as [H | H]; [discriminate |]); exact H.
Qed.

(** X9.  The [main] of the CLI revision starts a listener only when its
    first argument is server, and then on port 8080; it reads no argument
    after the first; and as server, when the listener cannot be started,
    it returns without a log line, so that the process ends with status
    0. *)
Theorem cli_main_listens_only_as_server (rt : Http.runtime) (Args : list string)
  (addr : string)
  (Hlisten : In (Http.ListenAndServe addr) (fst (Cli.main rt Args))) :
  (nth 1 Args EmptyString = "server" /\ addr = ":8080")
  /\ (forall prog arg rest, Cli.main rt (prog :: arg :: rest) = Cli.main rt [prog; arg])
  /\ (forall prog rest e,
        Http.ListenFails rt = Some e ->
        Cli.main rt (prog :: "server" :: rest)
        = ([Http.HandleFunc "/"; Http.ListenAndServe ":8080"], Http.Returns tt)).
Proof.
  split; [| split].
  - unfold Cli.main in Hlisten.
    destruct ((List.length Args <? 2)
              || (negb (String.eqb (nth 1 Args EmptyString) "server")
                  && negb (String.eqb (nth 1 Args EmptyString) "client"))).
    + cbn in Hlisten. destruct Hlisten as [H | H]; [discriminate | contradiction].
    + destruct (String.eqb (nth 1 Args EmptyString) "server") eqn:E.
      * apply String.eqb_eq in E. split; [exact E |].
        unfold Cli.server in Hlisten.
        destruct (Http.ListenFails rt); cbn in Hlisten;
          destruct Hlisten as [H | [H | H]]; try discriminate; try contradiction;
          now inversion H.
      * rewrite cli_client_as_final_client in Hlisten. cbn [fst In] in Hlisten.
        destruct Hlisten as [H | H]; [discriminate |].
        now apply final_client_never_listens in H.
  - reflexivity.
  - intros prog rest e He. unfold Cli.main. cbn [List.length nth Nat.ltb Nat.leb].
    cbn. unfold Cli.server. rewrite He. reflexivity.
Qed.

Lemma cli_main_listens_only_as_server_witness :
  nth 1 ["json"; "server"] EmptyString = "server" /\ ":8080" = ":8080".
Proof.
  apply (cli_main_listens_only_as_server demo_runtime ["json"; "server"] ":8080").
  cbn. right. left. reflexivity.
Defined.

(** X10.  The [main] of the final revision ends when its client ends: it
    starts the server in a goroutine, which registers the handler and
    listens, and then it is the client that decides; the process exits
    with status 1 when the request fails and returns when a response was
    printed.  It never stays to serve. *)
Theorem final_main_ends_with_client (rt : Http.runtime) (Args : list string) :
  Final.main rt Args
  = (Http.Go [Http.HandleFunc "/"; Http.ListenAndServe ":8080"]
       :: fst (Final.client rt), snd (Final.client rt))
  /\ snd (Final.main rt Args) <> Http.Serves
  /\ (snd (Final.main rt Args) = Http.Exits 1
      <-> exists err,
            Http.RoundTrip rt "POST" "http://localhost:8080" client_header client_text
            = inr err).
Proof.
  assert (Hmain : Final.main rt Args
                  = (Http.Go [Http.HandleFunc "/"; Http.ListenAndServe ":8080"]
                       :: fst (Final.client rt), snd (Final.client rt))).
  { unfold Final.main. rewrite server_trace.
    destruct (Final.client rt) as [t e]. destruct e; reflexivity. }
  split; [exact Hmain |]. rewrite Hmain. cbn [snd]. rewrite client_unfold.
  destruct (Http.RoundTrip rt "POST" "http://localhost:8080" client_header client_text)
    as [resp | err].
  - cbn. split; [discriminate |]. split; [discriminate | intros [e H]; discriminate].
  - cbn. split; [discriminate |]. split; [intros _; now exists err | reflexivity].
Qed.

(** ** Encoding a location *)

Lemma encodeFloat32_finite (f : Strconv.float32) :
  is_finite f = true -> exists text, Json.encodeFloat32 f = inl text.
Proof.
  destruct f as [s | s | | s m e]; try discriminate; intros _.
  - eexists; reflexivity.
  - unfold Json.encodeFloat32.
    destruct (Strconv.shortest_digits m e) as [d dp]. eexists; reflexivity.
Qed.

Lemma encodeFloat32_not_finite (f : Strconv.float32) :
  is_finite f = false -> exists what, Json.encodeFloat32 f
                                      = inr (Json.UnsupportedValueError what).
Proof.
  destruct f as [s | s | | s m e]; try discriminate; intros _; eexists; reflexivity.
Qed.

Lemma marshal_loc_unfold (l : Final.loc) :
  Json.Marshal l
  = match Json.encodeFloat32 (Final.Lat l) with
    | inr e => inr e
    | inl a =>
        match Json.encodeFloat32 (Final.Lon l) with
        | inr e => inr e
        | inl b => inl (Json.object_text [Json.member_text "Lat" a;
                                          Json.member_text "Lon" b])
        end
    end.
Proof.
  unfold Json.Marshal.
  unfold Json.encodeValue at 1, Final.loc_codec, Json.struct_codec.
  rewrite typeFields_final_loc. unfold Final.loc_fields.
  cbn [combine Json.encode_fields Json.get Json.fcodec Json.encodeValue
       Json.float32_codec].
  destruct (Json.encodeFloat32 (Final.Lat l)); [| reflexivity].
  destruct (Json.encodeFloat32 (Final.Lon l)); reflexivity.
Qed.

(** X11.  [json.Marshal] of a location gives a text exactly when both
    coordinates are finite; otherwise it gives the error of an unsupported
    value and no text (the client drops that error and would send an empty
    body). *)
Theorem marshal_loc_succeeds_iff (l : Final.loc) :
  ((exists text, Json.Marshal l = inl text)
   <-> is_finite (Final.Lat l) && is_finite (Final.Lon l) = true)
  /\ ((exists what, Json.Marshal l = inr (Json.UnsupportedValueError what))
      <-> is_finite (Final.Lat l) && is_finite (Final.Lon l) = false).
Proof.
  rewrite marshal_loc_unfold.
  destruct (is_finite (Final.Lat l)) eqn:Hlat.
  - destruct (encodeFloat32_finite _ Hlat) as [a Ha]. rewrite Ha.
    destruct (is_finite (Final.Lon l)) eqn:Hlon.
    + destruct (encodeFloat32_finite _ Hlon) as [b Hb]. rewrite Hb. cbn.
      split; split; try discriminate; eauto. intros [what H]. discriminate.
    + destruct (encodeFloat32_not_finite _ Hlon) as [b Hb]. rewrite Hb. cbn.
      split; split; try discriminate; eauto. intros [text H]. discriminate.
  - destruct (encodeFloat32_not_finite _ Hlat) as [a Ha]. rewrite Ha. cbn.
    split; split; try discriminate; eauto. intros [text H]. discriminate.
Qed.

(** ** Integers on the wire *)

Lemma digits_value_uint (d : Decimal.uint) :
  forall acc, Strconv.digits_value acc (NilEmpty.string_of_uint d)
              = Some (uint_val acc d).
Proof.
  induction d; intros acc; [reflexivity | ..];
    cbn [NilEmpty.string_of_uint Strconv.digits_value uint_val];
    (match goal with
     | |- context [Strconv.digit_val ?c] =>
         change (Strconv.digit_val c) with (Some (Z.of_nat (byte_of c - 48)))
     end); cbn [byte_of]; apply IHd.
Qed.

Lemma of_uint_acc_val (d : Decimal.uint) :
  forall acc, Z.pos (Pos.of_uint_acc d acc) = uint_val (Z.pos acc) d.
Proof.
  induction d; intros acc; cbn [Pos.of_uint_acc uint_val]; [reflexivity | ..];
    rewrite IHd; f_equal; lia.
Qed.

Lemma of_uint_val (d : Decimal.uint) : Z.of_N (Pos.of_uint d) = uint_val 0 d.
Proof.
  induction d; cbn [Pos.of_uint uint_val Z.of_N]; try reflexivity;
    try (rewrite of_uint_acc_val; f_equal; lia).
  exact IHd.
Qed.

Lemma to_uint_val (p : positive) : uint_val 0 (Pos.to_uint p) = Z.pos p.
Proof. now rewrite <- of_uint_val, DecimalPos.Unsigned.of_to. Qed.

Lemma length_append (a b : string) :
  String.length (a ++ b) = String.length a + String.length b.
Proof. induction a as [| c a IH]; cbn; [reflexivity | now rewrite IH]. Qed.

Lemma drop_append (a b : string) : drop (String.length a) (a ++ b) = b.
Proof. induction a as [| c a IH]; cbn; [reflexivity | exact IH]. Qed.

Lemma take_append (a b : string) : take (String.length a) (a ++ b) = a.
Proof. induction a as [| c a IH]; cbn; [reflexivity | now rewrite IH]. Qed.

Lemma append_assoc (a b c : string) : ((a ++ b) ++ c = a ++ (b ++ c))%string.
Proof. induction a as [| x a IH]; cbn; [reflexivity | now rewrite IH]. Qed.

(** The decimal of a positive number has a first digit, which is not 0. *)
Lemma to_uint_head (p : positive) :
  match Pos.to_uint p with
  | Decimal.Nil | Decimal.D0 _ => False
  | _ => True
  end.
Proof.
  pose proof (DecimalPos.Unsigned.to_of (Pos.to_uint p)) as Hn.
  rewrite DecimalPos.Unsigned.of_to in Hn. cbn [N.to_uint] in Hn.
  pose proof (DecimalPos.Unsigned.to_uint_nonnil p) as Hnil.
  pose proof (DecimalPos.Unsigned.to_uint_nonzero p) as Hzero.
  destruct (Pos.to_uint p) as [| u | u | u | u | u | u | u | u | u | u];
    try exact I; [congruence |].
  rewrite DecimalFacts.unorm_D0 in Hn.
  destruct u as [| u | u | u | u | u | u | u | u | u | u];
    try (exfalso; apply Hzero; reflexivity);
    match type of Hn with
    | _ = Decimal.unorm ?v =>
        assert (Hv : v <> Decimal.Nil) by discriminate;
        pose proof (DecimalFacts.nb_digits_unorm v Hv) as Hle;
        rewrite <- Hn in Hle; cbn [Decimal.nb_digits] in Hle; lia
    end.
Qed.

(** [ParseInt] reads back what [FormatInt] writes. *)
Lemma ParseInt_FormatInt (z : Z) :
  is_int64 z = true -> Strconv.ParseInt (Strconv.FormatInt z) = Some z.
Proof.
  intros Hz. unfold Strconv.FormatInt.
  assert (Hpos : forall p, Strconv.parse_digits (NilZero.string_of_uint (Pos.to_uint p))
                           = Some (Z.pos p)).
  { intros p. pose proof (to_uint_head p) as Hh. pose proof (to_uint_val p) as Hv.
    unfold NilZero.string_of_uint.
    destruct (Pos.to_uint p) as [| u | u | u | u | u | u | u | u | u | u] eqn:E;
      try contradiction;
      unfold Strconv.parse_digits;
      match goal with
      | |- context [NilEmpty.string_of_uint ?d] =>
          change (Strconv.digits_value 0 (NilEmpty.string_of_uint d) = Some (Z.pos p));
          rewrite digits_value_uint, Hv; reflexivity
      end. }
  destruct z as [| p | p].
  - reflexivity.
  - cbn [Z.to_int NilZero.string_of_int]. specialize (Hpos p).
    pose proof (to_uint_head p) as Hh. unfold NilZero.string_of_uint in *.
    destruct (Pos.to_uint p) as [| u | u | u | u | u | u | u | u | u | u];
      try contradiction;
      cbn [NilEmpty.string_of_uint] in *; unfold Strconv.ParseInt;
      cbv iota; rewrite Hpos; fold (is_int64 (Z.pos p)); rewrite Hz; reflexivity.
  - cbn [Z.to_int NilZero.string_of_int]. unfold Strconv.ParseInt.
    rewrite Hpos. change (- Z.pos p)%Z with (Z.neg p).
    fold (is_int64 (Z.neg p)). rewrite Hz. reflexivity.
Qed.

Lemma delim_cases (rest : string) :
  delim rest = true ->
  rest = EmptyString
  \/ exists r, rest = String "," r \/ rest = String "}" r \/ rest = String "]" r.
Proof.
  destruct rest as [| c r]; [now left |]. cbn [delim]. intros H. right. exists r.
  destruct (Ascii.eqb c ",") eqn:E1; [apply Ascii.eqb_eq in E1; subst; auto |].
  destruct (Ascii.eqb c "}") eqn:E2; [apply Ascii.eqb_eq in E2; subst; auto |].
  destruct (Ascii.eqb c "]") eqn:E3; [apply Ascii.eqb_eq in E3; subst; auto |].
  discriminate.
Qed.

(** A step of a proof by the cases of what follows a value. *)
Ltac by_delim H :=
  let r := fresh "r" in
  destruct (delim_cases _ H) as [-> | [r [-> | [-> | ->]]]].

Lemma span_digits (d : Decimal.uint) (rest : string) :
  delim rest = true ->
  span_len Strconv.is_digit (NilEmpty.string_of_uint d ++ rest)
  = String.length (NilEmpty.string_of_uint d).
Proof.
  intros H. induction d; cbn [NilEmpty.string_of_uint append String.length];
    try (change (span_len Strconv.is_digit (String ?c ?t))
           with (S (span_len Strconv.is_digit t)); now rewrite IHd).
  by_delim H; reflexivity.
Qed.

Lemma scan_tail (rest : string) :
  delim rest = true -> Json.scan_frac rest = Some 0 /\ Json.scan_exp rest = Some 0.
Proof. intros H. by_delim H; split; reflexivity. Qed.

(** The scan of a number that starts with a digit from 1 to 9, or with a
    minus and such a digit, and goes on with digits up to [rest]. *)
Lemma scan_number_digits (c : ascii) (t rest : string) :
  Json.is_digit19 c = true ->
  span_len Strconv.is_digit (String c t ++ rest) = String.length (String c t) ->
  delim rest = true ->
  Json.scan_number (String c t ++ rest) = Some (String.length (String c t))
  /\ Json.scan_number (String "-" (String c t ++ rest))
     = Some (S (String.length (String c t))).
Proof.
  intros Hc Hspan Hrest. destruct (scan_tail rest Hrest) as [Hf He].
  pose proof (drop_append (String c t) rest) as Hdrop.
  assert (Hint : Json.scan_int (String c t ++ rest) = Some (String.length (String c t))).
  { rewrite <- Hspan.
    destruct c as [[] [] [] [] [] [] [] []]; try discriminate; reflexivity. }
  assert (Hminus : Json.starts "-" (String c t ++ rest) = false).
  { destruct c as [[] [] [] [] [] [] [] []]; try discriminate; reflexivity. }
  split.
  - unfold Json.scan_number. rewrite Hminus. cbn [drop Nat.add].
    rewrite Hint, Hdrop, Hf, Nat.add_0_r, Hdrop, He, Nat.add_0_r. reflexivity.
  - unfold Json.scan_number.
    change (Json.starts "-" (String "-" (String c t ++ rest))) with true.
    cbn [drop Nat.add]. rewrite Hint. cbn [drop]. rewrite Hdrop, Hf.
    rewrite Nat.add_0_r. cbn [drop]. rewrite Hdrop, He, Nat.add_0_r. reflexivity.
Qed.

Lemma FormatInt_pos (p : positive) :
  exists c t, NilEmpty.string_of_uint (Pos.to_uint p) = String c t
              /\ Json.is_digit19 c = true
              /\ Strconv.FormatInt (Z.pos p) = String c t
              /\ Strconv.FormatInt (Z.neg p) = String "-" (String c t).
Proof.
  pose proof (to_uint_head p) as Hh.
  unfold Strconv.FormatInt. cbn [Z.to_int NilZero.string_of_int].
  unfold NilZero.string_of_uint.
  destruct (Pos.to_uint p) as [| u | u | u | u | u | u | u | u | u | u];
    try contradiction; cbn [NilEmpty.string_of_uint];
    do 2 eexists; repeat split; reflexivity.
Qed.

(** The scan of a number stops at the end of what [FormatInt] wrote. *)
Lemma scan_number_FormatInt (z : Z) (rest : string) :
  delim rest = true ->
  Json.scan_number (Strconv.FormatInt z ++ rest)
  = Some (String.length (Strconv.FormatInt z)).
Proof.
  intros Hrest. destruct z as [| p | p].
  - by_delim Hrest; reflexivity.
  - destruct (FormatInt_pos p) as [c [t [Hs [Hc [Hp Hn]]]]]. rewrite Hp.
    apply scan_number_digits; [exact Hc | | exact Hrest].
    rewrite <- Hs. now apply span_digits.
  - destruct (FormatInt_pos p) as [c [t [Hs [Hc [Hp Hn]]]]]. rewrite Hn.
    cbn [append String.length].
    apply scan_number_digits; [exact Hc | | exact Hrest].
    rewrite <- Hs. now apply span_digits.
Qed.

(** A text that starts with a minus or a digit is read as a number. *)
Lemma parse_value_number (depth : nat) (c : ascii) (t : string) (n : nat) :
  Ascii.eqb c "-" || Strconv.is_digit c = true ->
  Json.scan_number (String c t) = Some n ->
  Json.parse_value depth (String c t)
  = Some (Json.Number (take n (String c t)), drop n (String c t)).
Proof.
  intros Hc Hn.
  transitivity (match Json.scan_number (String c t) with
                | Some n => Some (Json.Number (take n (String c t)),
                                  drop n (String c t))
                | None => None
                end); [| now rewrite Hn].
  destruct c as [[] [] [] [] [] [] [] []]; try discriminate;
    destruct depth; reflexivity.
Qed.

Lemma parse_value_FormatInt (depth : nat) (z : Z) (rest : string) :
  delim rest = true ->
  Json.parse_value depth (Strconv.FormatInt z ++ rest)
  = Some (Json.Number (Strconv.FormatInt z), rest).
Proof.
  intros Hrest. pose proof (scan_number_FormatInt z rest Hrest) as Hscan.
  pose proof (take_append (Strconv.FormatInt z) rest) as Htake.
  pose proof (drop_append (Strconv.FormatInt z) rest) as Hdrop.
  assert (H : exists c t, Strconv.FormatInt z = String c t
                          /\ Ascii.eqb c "-" || Strconv.is_digit c = true).
  { destruct z as [| p | p].
    - exists "0"%char, EmptyString. split; reflexivity.
    - destruct (FormatInt_pos p) as [c [t [_ [Hc [Hp _]]]]]. exists c, t.
      split; [exact Hp |].
      destruct c as [[] [] [] [] [] [] [] []]; try discriminate; reflexivity.
    - destruct (FormatInt_pos p) as [c [t [_ [_ [_ Hn]]]]].
      exists "-"%char, (String c t). split; [exact Hn | reflexivity]. }
  destruct H as [c [t [Hz Hc]]]. rewrite Hz in *. cbn [append] in *.
  rewrite (parse_value_number depth c (t ++ rest) _ Hc Hscan).
  now rewrite Htake, Hdrop.
Qed.

(** ** Strings on the wire *)

(** One ASCII byte, as the encoder writes it, is scanned in one step and
    read back as the byte. *)
Lemma scan_string_char (c : ascii) (fuel : nat) (t : string) :
  (byte_of c <? 128) = true ->
  Json.scan_string (S fuel) (Json.escape_ascii c ++ t)
  = match Json.scan_string fuel t with
    | Some n => Some (String.length (Json.escape_ascii c) + n)
    | None => None
    end.
Proof.
  destruct c as [[] [] [] [] [] [] [] []]; try discriminate; intros _; reflexivity.
Qed.

Lemma unquote_char (c : ascii) (fuel : nat) (t : string) :
  (byte_of c <? 128) = true ->
  Json.unquote (S fuel) (Json.escape_ascii c ++ t) = String c (Json.unquote fuel t).
Proof.
  destruct c as [[] [] [] [] [] [] [] []]; try discriminate; intros _; reflexivity.
Qed.

Lemma escape_step (c : ascii) (n : nat) (s : string) :
  (byte_of c <? 128) = true ->
  Json.escape (S n) (String c s) = Json.escape_ascii c ++ Json.escape n s.
Proof. intros H. cbn [Json.escape]. now rewrite H. Qed.

Lemma escape_ascii_length (c : ascii) : 1 <= String.length (Json.escape_ascii c).
Proof.
  apply Nat.leb_le. destruct c as [[] [] [] [] [] [] [] []]; reflexivity.
Qed.

Lemma escape_length (s : string) :
  is_ascii s = true -> String.length s <= String.length (Json.escape (String.length s) s).
Proof.
  induction s as [| c s IH]; [reflexivity |].
  cbn [is_ascii String.length]. intros H. apply andb_prop in H. destruct H as [Hc Hs].
  rewrite escape_step by exact Hc. rewrite length_append.
  pose proof (escape_ascii_length c). specialize (IH Hs). lia.
Qed.

Lemma scan_escaped (s : string) :
  is_ascii s = true ->
  forall fuel rest,
    String.length s < fuel ->
    Json.scan_string fuel (Json.escape (String.length s) s ++ String dquote rest)
    = Some (String.length (Json.escape (String.length s) s)).
Proof.
  induction s as [| c s IH]; intros Hs fuel rest Hfuel.
  - destruct fuel as [| fuel]; [inversion Hfuel | reflexivity].
  - cbn [is_ascii String.length] in *. apply andb_prop in Hs. destruct Hs as [Hc Hs].
    destruct fuel as [| fuel]; [inversion Hfuel |].
    rewrite escape_step by exact Hc. rewrite append_assoc.
    rewrite scan_string_char by exact Hc.
    rewrite (IH Hs fuel rest) by lia. now rewrite length_append.
Qed.

Lemma unquote_escaped (s : string) :
  is_ascii s = true ->
  forall fuel,
    String.length s <= fuel ->
    Json.unquote fuel (Json.escape (String.length s) s) = s.
Proof.
  induction s as [| c s IH]; intros Hs fuel Hfuel.
  - destruct fuel; reflexivity.
  - cbn [is_ascii String.length] in *. apply andb_prop in Hs. destruct Hs as [Hc Hs].
    destruct fuel as [| fuel]; [inversion Hfuel |].
    rewrite escape_step by exact Hc. rewrite unquote_char by exact Hc.
    rewrite (IH Hs fuel) by lia. reflexivity.
Qed.

Lemma drop_past (a b : string) (c : ascii) :
  drop (S (String.length a)) (a ++ String c b) = b.
Proof. induction a as [| x a IH]; cbn; [reflexivity | exact IH]. Qed.

(** [parse_string] reads back what [quote] writes of an ASCII string. *)
Lemma parse_string_quote (s rest : string) :
  is_ascii s = true -> Json.parse_string (Json.quote s ++ rest) = Some (s, rest).
Proof.
  intros Hs. unfold Json.quote. cbn [append]. rewrite append_assoc. cbn [append].
  unfold Json.parse_string.
  change (Ascii.eqb dquote dquote) with true. cbv iota.
  pose proof (escape_length s Hs) as Hlen.
  rewrite scan_escaped; [| exact Hs | rewrite length_append; cbn [String.length]; lia].
  rewrite take_append, drop_past, unquote_escaped; [reflexivity | exact Hs | exact Hlen].
Qed.

Lemma parse_value_quote (depth : nat) (s rest : string) :
  is_ascii s = true ->
  Json.parse_value depth (Json.quote s ++ rest) = Some (Json.Str s, rest).
Proof.
  intros Hs.
  transitivity (match Json.parse_string (Json.quote s ++ rest) with
                | Some (t, r) => Some (Json.Str t, r)
                | None => None
                end); [| now rewrite parse_string_quote].
  unfold Json.quote. cbn [append]. destruct depth; reflexivity.
Qed.

(** ** Objects and arrays on the wire *)

Lemma parse_value_object (depth : nat) (s : string) :
  Json.parse_value (S depth) (String "{" s)
  = let s1 := Json.skip_ws s in
    if Json.starts "}" s1 then Some (Json.Object [], drop 1 s1)
    else members_loop (Json.parse_value depth) (String.length s1) s1 [].
Proof. reflexivity. Qed.

Lemma parse_value_array (depth : nat) (s : string) :
  Json.parse_value (S depth) (String "[" s)
  = let s1 := Json.skip_ws s in
    if Json.starts "]" s1 then Some (Json.Array [], drop 1 s1)
    else elements_loop (Json.parse_value depth) (String.length s1) s1 [].
Proof. reflexivity. Qed.

Lemma members_loop_S (pv : string -> option (Json.value * string))
  (n : nat) (s : string) (acc : list (string * Json.value)) :
  members_loop pv (S n) s acc
  = match Json.parse_string (Json.skip_ws s) with
    | None => None
    | Some (k, s) =>
        let s := Json.skip_ws s in
        if Json.starts ":" s then
          match pv (drop 1 s) with
          | None => None
          | Some (v, s) =>
              let s := Json.skip_ws s in
              if Json.starts "," s then members_loop pv n (drop 1 s) ((k, v) :: acc)
              else if Json.starts "}" s then
                Some (Json.Object (rev ((k, v) :: acc)), drop 1 s)
              else None
          end
        else None
    end.
Proof. reflexivity. Qed.

Lemma elements_loop_S (pv : string -> option (Json.value * string))
  (n : nat) (s : string) (acc : list Json.value) :
  elements_loop pv (S n) s acc
  = match pv s with
    | None => None
    | Some (v, s) =>
        let s := Json.skip_ws s in
        if Json.starts "," s then elements_loop pv n (drop 1 s) (v :: acc)
        else if Json.starts "]" s then Some (Json.Array (rev (v :: acc)), drop 1 s)
        else None
    end.
Proof. reflexivity. Qed.

Lemma skip_ws_quote (k rest : string) :
  Json.skip_ws (Json.quote k ++ rest) = Json.quote k ++ rest.
Proof. reflexivity. Qed.

(** The text of a list of members starts with the first key. *)
Lemma members_text_cons (m : written_member) (ms : list written_member) (rest : string) :
  members_text (m :: ms) ++ rest
  = Json.quote (fst (fst m))
    ++ String ":" (snd m ++ match ms with
                            | [] => rest
                            | _ :: _ => String "," (members_text ms ++ rest)
                            end).
Proof.
  unfold members_text. destruct ms as [| m' ms]; cbn [map String.concat];
    unfold written at 1, Json.member_text; rewrite !append_assoc; reflexivity.
Qed.

Lemma members_text_length (ms : list written_member) (rest : string) :
  List.length ms <= String.length (members_text ms ++ rest).
Proof.
  revert rest. induction ms as [| m ms IH]; intros rest; [apply Nat.le_0_l |].
  rewrite members_text_cons. unfold Json.quote. cbn [append String.length List.length].
  apply le_n_S. rewrite !length_append. cbn [String.length].
  destruct ms as [| m' ms]; [cbn [List.length]; lia |].
  specialize (IH rest). rewrite length_append. cbn [String.length]. lia.
Qed.

(** The loop over the members reads back the members as they are written. *)
Lemma members_loop_written (pv : string -> option (Json.value * string))
  (ms : list written_member) :
  Forall (reads_back pv) ms -> ms <> [] ->
  forall n acc rest,
    List.length ms <= n ->
    members_loop pv n (members_text ms ++ String "}" rest) acc
    = Some (Json.Object (rev acc ++ members_of ms), rest).
Proof.
  induction ms as [| m ms IH]; intros Hall Hne n acc rest Hn; [congruence |].
  inversion Hall as [| m0 ms0 [Hk Hv] Hall']; subst m0 ms0.
  destruct n as [| n]; [inversion Hn |].
  rewrite members_text_cons, members_loop_S, skip_ws_quote.
  rewrite parse_string_quote by exact Hk. cbv zeta.
  destruct m as [[k v] t]. cbn [fst snd] in *.
  change (Json.skip_ws (String ":" ?x)) with (String ":" x).
  change (Json.starts ":" (String ":" ?x)) with true. cbv iota. cbn [drop].
  destruct ms as [| m' ms].
  - rewrite Hv by reflexivity.
    change (Json.skip_ws (String "}" rest)) with (String "}" rest).
    change (Json.starts "," (String "}" rest)) with false.
    change (Json.starts "}" (String "}" rest)) with true. cbv iota. cbn [drop].
    reflexivity.
  - rewrite Hv by reflexivity.
    change (Json.skip_ws (String "," ?x)) with (String "," x).
    change (Json.starts "," (String "," ?x)) with true. cbv iota. cbn [drop].
    rewrite IH; [| exact Hall' | discriminate | cbn [List.length] in *; lia].
    cbn [rev members_of map fst]. rewrite <- app_assoc. reflexivity.
Qed.

(** An object is read back from the text of its members. *)
Lemma parse_value_written (depth : nat) (ms : list written_member) (rest : string) :
  Forall (reads_back (Json.parse_value depth)) ms ->
  Json.parse_value (S depth) (Json.object_text (map written ms) ++ rest)
  = Some (Json.Object (members_of ms), rest).
Proof.
  intros Hall. unfold Json.object_text. fold (members_text ms).
  cbn [append]. rewrite append_assoc. cbn [append].
  rewrite parse_value_object. cbv zeta.
  destruct ms as [| m ms]; [reflexivity |].
  pose proof (members_text_length (m :: ms) (String "}" rest)) as Hlen.
  assert (Hskip : Json.skip_ws (members_text (m :: ms) ++ String "}" rest)
                  = members_text (m :: ms) ++ String "}" rest)
    by (rewrite members_text_cons; reflexivity).
  assert (Hstart : Json.starts "}" (members_text (m :: ms) ++ String "}" rest) = false)
    by (rewrite members_text_cons; reflexivity).
  rewrite Hskip, Hstart.
  rewrite members_loop_written; [reflexivity | exact Hall | discriminate | exact Hlen].
Qed.

(** What [FormatInt] writes starts with a minus or a digit. *)
Lemma FormatInt_head (z : Z) :
  exists c t, Strconv.FormatInt z = String c t
              /\ Ascii.eqb c "-" || Strconv.is_digit c = true.
Proof.
  destruct z as [| p | p].
  - exists "0"%char, EmptyString. split; reflexivity.
  - destruct (FormatInt_pos p) as [c [t [_ [Hc [Hp _]]]]]. exists c, t.
    split; [exact Hp |].
    destruct c as [[] [] [] [] [] [] [] []]; try discriminate; reflexivity.
  - destruct (FormatInt_pos p) as [c [t [_ [_ [_ Hn]]]]].
    exists "-"%char, (String c t). split; [exact Hn | reflexivity].
Qed.

Lemma ints_text_cons (z : Z) (l : list Z) (rest : string) :
  String.concat "," (map Strconv.FormatInt (z :: l)) ++ rest
  = Strconv.FormatInt z
    ++ match l with
       | [] => rest
       | _ :: _ => String "," (String.concat "," (map Strconv.FormatInt l) ++ rest)
       end.
Proof.
  destruct l as [| z' l]; cbn [map String.concat]; [reflexivity |].
  rewrite !append_assoc. reflexivity.
Qed.

Lemma ints_text_length (l : list Z) (rest : string) :
  List.length l <= String.length (String.concat "," (map Strconv.FormatInt l) ++ rest).
Proof.
  revert rest. induction l as [| z l IH]; intros rest; [apply Nat.le_0_l |].
  rewrite ints_text_cons, length_append.
  destruct (FormatInt_head z) as [c [t [Hz _]]]. rewrite Hz.
  destruct l as [| z' l]; cbn [String.length List.length]; [lia |].
  specialize (IH rest). cbn [List.length] in IH. lia.
Qed.

(** The loop over the elements reads back the integers of an array. *)
Lemma elements_loop_ints (depth : nat) (l : list Z) :
  l <> [] ->
  forall n acc rest,
    List.length l <= n ->
    elements_loop (Json.parse_value depth) n
      (String.concat "," (map Strconv.FormatInt l) ++ String "]" rest) acc
    = Some (Json.Array (rev acc ++ map number_of l), rest).
Proof.
  induction l as [| z l IH]; intros Hne n acc rest Hn; [congruence |].
  destruct n as [| n]; [inversion Hn |].
  rewrite ints_text_cons, elements_loop_S.
  destruct l as [| z' l].
  - rewrite parse_value_FormatInt by reflexivity. cbv zeta.
    change (Json.skip_ws (String "]" rest)) with (String "]" rest).
    change (Json.starts "," (String "]" rest)) with false.
    change (Json.starts "]" (String "]" rest)) with true. cbv iota. cbn [drop].
    reflexivity.
  - rewrite parse_value_FormatInt by reflexivity. cbv zeta.
    change (Json.skip_ws (String "," ?x)) with (String "," x).
    change (Json.starts "," (String "," ?x)) with true. cbv iota. cbn [drop].
    rewrite IH; [| discriminate | cbn [List.length] in *; lia].
    cbn [rev map]. rewrite <- app_assoc. reflexivity.
Qed.

(** An array of integers is read back from its text. *)
Lemma parse_value_ints (depth : nat) (l : list Z) (rest : string) :
  Json.parse_value (S depth) (Json.array_text (map Strconv.FormatInt l) ++ rest)
  = Some (Json.Array (map number_of l), rest).
Proof.
  unfold Json.array_text. cbn [append]. rewrite append_assoc. cbn [append].
  rewrite parse_value_array. cbv zeta.
  destruct l as [| z l]; [reflexivity |].
  pose proof (ints_text_length (z :: l) (String "]" rest)) as Hlen.
  assert (H : Json.skip_ws (String.concat "," (map Strconv.FormatInt (z :: l))
                            ++ String "]" rest)
              = String.concat "," (map Strconv.FormatInt (z :: l)) ++ String "]" rest
              /\ Json.starts "]" (String.concat "," (map Strconv.FormatInt (z :: l))
                                  ++ String "]" rest) = false).
  { rewrite ints_text_cons. destruct (FormatInt_head z) as [c [t [Hz Hc]]].
    rewrite Hz. cbn [append].
    destruct c as [[] [] [] [] [] [] [] []]; try discriminate; split; reflexivity. }
  destruct H as [Hskip Hstart]. rewrite Hskip, Hstart.
  rewrite elements_loop_ints; [reflexivity | discriminate | exact Hlen].
Qed.

(** The texts of the booleans and of the nil slice. *)
Lemma parse_value_bool (depth : nat) (b : bool) (rest : string) :
  Json.parse_value depth ((if b then "true" else "false") ++ rest)
  = Some (Json.Bool b, rest).
Proof. destruct rest, b, depth; reflexivity. Qed.

Lemma parse_value_null (depth : nat) (rest : string) :
  Json.parse_value depth ("null" ++ rest) = Some (Json.Null, rest).
Proof. destruct rest, depth; reflexivity. Qed.

(** ** The weather on the wire *)

Lemma maxNestingDepth_two : exists d, Json.maxNestingDepth = S (S d).
Proof. eexists. reflexivity. Qed.

(** The nested object of the wind is read back. *)
Lemma parse_value_wind (depth : nat) (w : Final.windData) (rest : string) :
  is_ascii (Final.Direction w) = true ->
  Json.parse_value (S depth) (wind_text w ++ rest)
  = Some (Json.Object (members_of (wind_members w)), rest).
Proof.
  intros Hd. change (wind_text w) with (Json.object_text (map written (wind_members w))).
  apply parse_value_written. unfold wind_members.
  repeat apply Forall_cons; try apply Forall_nil; split; try reflexivity;
    cbn [fst snd]; intros r Hr.
  - now apply parse_value_quote.
  - now apply parse_value_FormatInt.
Qed.

Lemma parse_value_forecast (depth : nat) (s : Json.slice Z) (rest : string) :
  Json.parse_value (S depth) (forecast_text s ++ rest) = Some (forecast_value s, rest).
Proof.
  destruct s as [l |]; cbn [forecast_text forecast_value].
  - apply parse_value_ints.
  - apply parse_value_null.
Qed.

(** What [json.Marshal] writes for a weather value is read as the object
    of its six members. *)
Lemma parse_weather (w : Final.weatherData) :
  is_ascii (Final.LocationName w) = true ->
  is_ascii (Final.Weather w) = true ->
  is_ascii (Final.Direction (Final.Wind w)) = true ->
  Json.parse (Json.object_text (map written (weather_members w)))
  = Some (Json.Object (members_of (weather_members w))).
Proof.
  intros Hl Hw Hd. unfold Json.parse.
  destruct maxNestingDepth_two as [d ->].
  rewrite <- (append_nil_r (Json.object_text (map written (weather_members w)))).
  rewrite parse_value_written; [reflexivity |].
  unfold weather_members.
  repeat apply Forall_cons; try apply Forall_nil; split; try reflexivity;
    cbn [fst snd]; intros r Hr.
  - now apply parse_value_quote.
  - now apply parse_value_quote.
  - now apply parse_value_FormatInt.
  - apply parse_value_bool.
  - apply parse_value_forecast.
  - now apply parse_value_wind.
Qed.

(** The decoder of a slice of integers takes back the integers. *)
Lemma decode_elems_ints (l : list Z) :
  forallb is_int64 l = true ->
  Json.decode_elems (map number_of l) = (l, None).
Proof.
  induction l as [| z l IH]; [reflexivity |].
  cbn [forallb map Json.decode_elems]. intros H. apply andb_prop in H.
  destruct H as [Hz Hl]. rewrite (IH Hl).
  unfold number_of at 1. cbn [Json.decodeValue Json.int_codec].
  rewrite (ParseInt_FormatInt z Hz). reflexivity.
Qed.

Lemma decode_forecast (s old : Json.slice Z) :
  match s with None => true | Some l => forallb is_int64 l end = true ->
  Json.decodeValue (forecast_value s) old = (s, None).
Proof.
  destruct s as [l |]; intros H; [| reflexivity].
  cbn [forecast_value Json.decodeValue Json.slice_codec].
  rewrite (decode_elems_ints l H). reflexivity.
Qed.

Lemma find_field_wind :
  Json.find_field Final.windData_fields "Direction" = nth_error Final.windData_fields 0
  /\ Json.find_field Final.windData_fields "Speed" = nth_error Final.windData_fields 1.
Proof.
  unfold Json.find_field. rewrite typeFields_final_windData. split; reflexivity.
Qed.

Lemma find_field_weather :
  Json.find_field Final.weatherData_fields "LocationName"
  = nth_error Final.weatherData_fields 0
  /\ Json.find_field Final.weatherData_fields "Weather"
     = nth_error Final.weatherData_fields 1
  /\ Json.find_field Final.weatherData_fields "Temperature"
     = nth_error Final.weatherData_fields 2
  /\ Json.find_field Final.weatherData_fields "Celsius"
     = nth_error Final.weatherData_fields 3
  /\ Json.find_field Final.weatherData_fields "TempForecast"
     = nth_error Final.weatherData_fields 4
  /\ Json.find_field Final.weatherData_fields "Wind"
     = nth_error Final.weatherData_fields 5.
Proof.
  unfold Json.find_field. rewrite typeFields_final_weatherData.
  repeat split; reflexivity.
Qed.

(** The object of the wind is decoded to the wind, whatever the variable
    held before. *)
Lemma decode_wind (w old : Final.windData) :
  is_int64 (Final.Speed w) = true ->
  Json.decodeValue (Json.Object (members_of (wind_members w))) old = (w, None).
Proof.
  intros Hs. destruct find_field_wind as [H1 H2]. destruct w as [d sp].
  cbn [Final.Speed] in Hs.
  change (Json.decodeValue (Json.Object ?ms) old)
    with (Json.decode_members Final.windData_fields ms old).
  unfold wind_members, members_of. cbn [map fst snd Final.Direction Final.Speed].
  cbn [Json.decode_members]. rewrite H1, H2.
  unfold Final.windData_fields.
  cbn [nth_error Json.fcodec Json.get Json.set Json.ftype
       Json.decodeValue Json.string_codec Json.int_codec number_of
       Final.Direction Final.Speed Json.first_error].
  rewrite (ParseInt_FormatInt sp Hs). reflexivity.
Qed.

(** The object of the six members is decoded to the weather value,
    whatever the variable held before. *)
Lemma decode_weather (w old : Final.weatherData) :
  wire_safe w = true ->
  Json.decodeValue (Json.Object (members_of (weather_members w))) old = (w, None).
Proof.
  unfold wire_safe. intros H.
  repeat (apply andb_prop in H; let H' := fresh "H" in destruct H as [H H']).
  destruct find_field_weather as [F1 [F2 [F3 [F4 [F5 F6]]]]].
  destruct w as [ln we te ce fo wi].
  cbn [Final.LocationName Final.Weather Final.Temperature Final.Celsius
       Final.TempForecast Final.Wind] in *.
  change (Json.decodeValue (Json.Object ?ms) old)
    with (Json.decode_members Final.weatherData_fields ms old).
  unfold weather_members, members_of.
  cbn [map fst snd Final.LocationName Final.Weather Final.Temperature Final.Celsius
       Final.TempForecast Final.Wind].
  cbn [Json.decode_members]. rewrite F1, F2, F3, F4, F5, F6.
  unfold Final.weatherData_fields.
  cbn [nth_error Json.fcodec Json.get Json.set Json.ftype
       Json.decodeValue Json.string_codec Json.int_codec Json.bool_codec number_of
       Final.LocationName Final.Weather Final.Temperature Final.Celsius
       Final.TempForecast Final.Wind Json.first_error].
  rewrite (ParseInt_FormatInt te) by assumption.
  rewrite decode_forecast by assumption.
  rewrite decode_wind by assumption.
  reflexivity.
Qed.

Lemma marshal_weather_members (w : Final.weatherData) :
  Json.Marshal w = inl (Json.object_text (map written (weather_members w))).
Proof.
  unfold Json.Marshal.
  unfold Json.encodeValue at 1, Final.weatherData_codec, Json.struct_codec.
  rewrite typeFields_final_weatherData.
  unfold Final.weatherData_fields.
  cbn [combine Json.encode_fields Json.get Json.fcodec].
  rewrite encode_wind, encode_forecast.
  reflexivity.
Qed.

(** X12.  The round trip of the final revision.  A weather value whose
    strings are ASCII and whose integers are in the range of Go's int is
    encoded by [json.Marshal] without an error, and [json.Unmarshal] of
    the text gives the value back without an error, whatever the variable
    held before. *)
Theorem marshal_unmarshal_weatherData (w old : Final.weatherData) :
  wire_safe w = true ->
  exists text,
    Json.Marshal w = inl text /\ Json.Unmarshal text old = (w, None).
Proof.
  intros H. exists (Json.object_text (map written (weather_members w))).
  split; [apply marshal_weather_members |].
  unfold Json.Unmarshal.
  pose proof H as H0. unfold wire_safe in H0.
  repeat (apply andb_prop in H0; let H' := fresh "H" in destruct H0 as [H0 H']).
  rewrite parse_weather by assumption.
  now apply decode_weather.
Qed.

Lemma marshal_unmarshal_weatherData_witness :
  wire_safe stormy = true
  /\ exists text,
       Json.Marshal stormy = inl text
       /\ Json.Unmarshal text Final.weather = (stormy, None).
Proof.
  split; [reflexivity |].
  apply (marshal_unmarshal_weatherData stormy Final.weather). reflexivity.
Defined.
